(** * marketfit: the harvesting and validation pipeline of [main.py]

    A shallow embedding of the URL safety gate, the three harvesters, the
    synthesis adapter and the [/generate-ideas] route.  Python values that
    arrive from JSON are kept dynamically typed ([json]); exceptions are an
    explicit [result]; every interaction with the outside world (DNS, HTTP,
    the Play-store library, the language model, sleeping, random choices)
    is an event appended to a history, and the outside world answers as a
    function of the history so far. *)

From Stdlib Require Import List String Ascii ZArith QArith Bool Lia Arith.
From Stdlib Require Import DecimalString.
Import ListNotations.
Open Scope string_scope.
Open Scope Z_scope.

Set Implicit Arguments.
Set Warnings "-register-all".

(** ** Exceptions *)

Inductive exn : Type :=
| ValueError
| TypeError
| KeyError
| IndexError
| AttributeError
| OverflowError
| IOError.        (* network, DNS, library and model failures *)

Inductive result (A : Type) : Type :=
| Ok (a : A)
| Raise (e : exn).

Arguments Ok {A} a.
Arguments Raise {A} e.

Definition rbind {A B} (r : result A) (k : A -> result B) : result B :=
  match r with
  | Ok a => k a
  | Raise e => Raise e
  end.

Definition is_ok {A} (r : result A) : bool :=
  match r with Ok _ => true | Raise _ => false end.

(** ** JSON values as Python sees them after [json.loads] *)

Inductive json : Type :=
| JNull
| JBool (b : bool)
| JInt (z : Z)
| JFloat (q : Q)               (* a finite float, by its exact value *)
| JNan
| JInf (negative : bool)
| JStr (s : string)
| JList (l : list json)
| JObj (items : list (string * json)).   (* a dict, in iteration order *)

(** ** Strings *)

Fixpoint take (n : nat) (s : string) : string :=
  match n, s with
  | S n', String c s' => String c (take n' s')
  | _, _ => EmptyString
  end.

Fixpoint drop (n : nat) (s : string) : string :=
  match n, s with
  | S n', String _ s' => drop n' s'
  | _, _ => s
  end.

Definition startswith (s p : string) : bool := String.prefix p s.

(** [s.endswith(suf)] *)
Definition endswith (s suf : string) : bool :=
  (String.length suf <=? String.length s)%nat
  && String.eqb (drop (String.length s - String.length suf) s) suf.

(** [needle in s] for two strings *)
Fixpoint contains (needle s : string) : bool :=
  startswith s needle
  || match s with
     | EmptyString => false
     | String _ s' => contains needle s'
     end.

Fixpoint chars (s : string) : list string :=
  match s with
  | EmptyString => []
  | String c s' => String c EmptyString :: chars s'
  end.

Definition newline : string := String (ascii_of_nat 10) EmptyString.

Fixpoint join (sep : string) (l : list string) : string :=
  match l with
  | [] => ""
  | [x] => x
  | x :: rest => x ++ sep ++ join sep rest
  end.

(** ** The Python operations the program applies to JSON values *)

Fixpoint lookup (k : string) (items : list (string * json)) : option json :=
  match items with
  | [] => None
  | (k', v) :: rest => if String.eqb k k' then Some v else lookup k rest
  end.

(** [v.get(k, default)] *)
Definition py_get (v : json) (k : string) (default : json) : result json :=
  match v with
  | JObj items =>
      Ok (match lookup k items with Some x => x | None => default end)
  | _ => Raise AttributeError
  end.

(** [v[k]] with a string key *)
Definition py_item (v : json) (k : string) : result json :=
  match v with
  | JObj items =>
      match lookup k items with Some x => Ok x | None => Raise KeyError end
  | _ => Raise TypeError
  end.

(** [v[0]] *)
Definition py_first (v : json) : result json :=
  match v with
  | JList (x :: _) => Ok x
  | JList [] => Raise IndexError
  | JStr (String c _) => Ok (JStr (String c EmptyString))
  | JStr EmptyString => Raise IndexError
  | JObj _ => Raise KeyError
  | _ => Raise TypeError
  end.

(** truth value, as [if v], [not v], [v or d] use it *)
Definition truthy (v : json) : bool :=
  match v with
  | JNull => false
  | JBool b => b
  | JInt z => negb (z =? 0)
  | JFloat q => negb (Qeq_bool q 0)
  | JNan => true
  | JInf _ => true
  | JStr s => negb (String.eqb s "")
  | JList l => match l with [] => false | _ => true end
  | JObj items => match items with [] => false | _ => true end
  end.

(** [v or d] *)
Definition py_or (v d : json) : json := if truthy v then v else d.

(** [for x in v] *)
Definition py_iter (v : json) : result (list json) :=
  match v with
  | JList l => Ok l
  | JStr s => Ok (map JStr (chars s))
  | JObj items => Ok (map (fun kv => JStr (fst kv)) items)
  | _ => Raise TypeError
  end.

(** [len(v)] *)
Definition py_len (v : json) : result Z :=
  match v with
  | JStr s => Ok (Z.of_nat (String.length s))
  | JList l => Ok (Z.of_nat (List.length l))
  | JObj items => Ok (Z.of_nat (List.length items))
  | _ => Raise TypeError
  end.

(** the stop index of [x[:n]] on a sequence of length [len] *)
Definition slice_stop (n : Z) (len : nat) : nat :=
  if 0 <=? n then Z.to_nat n else (len - Z.to_nat (- n))%nat.

(** [v[:n]] *)
Definition py_slice (v : json) (n : Z) : result json :=
  match v with
  | JStr s => Ok (JStr (take (slice_stop n (String.length s)) s))
  | JList l => Ok (JList (firstn (slice_stop n (List.length l)) l))
  | _ => Raise TypeError
  end.

(** [v > 0] *)
Definition py_gt0 (v : json) : result bool :=
  match v with
  | JBool b => Ok b
  | JInt z => Ok (0 <? z)
  | JFloat q => Ok (negb (Qle_bool q 0))
  | JNan => Ok false
  | JInf negative => Ok (negb negative)
  | _ => Raise TypeError
  end.

(** [v == s] for a string literal [s] *)
Definition py_eq_str (v : json) (s : string) : bool :=
  match v with
  | JStr s' => String.eqb s' s
  | _ => false
  end.

(** [s in v] / [s not in v] for a string literal [s] *)
Definition py_contains (s : string) (v : json) : result bool :=
  match v with
  | JObj items => Ok (match lookup s items with Some _ => true | None => false end)
  | JStr t => Ok (contains s t)
  | JList l => Ok (existsb (fun x => py_eq_str x s) l)
  | _ => Raise TypeError
  end.

(** ** The outside world

    Library functions whose exact behaviour is Python's (Unicode case
    mapping, [str()], [int()] on strings, URL parsing) and everything that
    answers over the network are fields of [World].  Network answers may
    depend on the whole history of the request. *)

Record ParseResult := { scheme : string; hostname : option string }.

(** what [ipaddress.ip_address(ip)] exposes to the program *)
Record IPAddress := { is_private : bool; is_loopback : bool }.

(** what a [Response] object exposes: [resp.json()] may raise *)
Record Response := { status_code : Z; text : string; body : result json }.

Inductive event : Type :=
| Gate (url : string) (verdict : bool)  (* is_safe_url(url) returned verdict *)
| Dns (host : string)                   (* socket.gethostbyname_ex *)
| Get (url : string) (params : list (string * json))  (* requests.get, session.get *)
| PlayApp (app_id : string)             (* google_play_scraper.app *)
| PlayReviews (app_id : json)           (* google_play_scraper.reviews *)
| Llm (data_str : string)               (* client.chat.completions.create *)
| Choice                                (* random.choice(USER_AGENTS) *)
| Sleep.                                (* time.sleep, asyncio.sleep *)

(** newest event first *)
Definition history := list event.

Record World := {
  urlparse : string -> result ParseResult;
  str_lower : string -> string;
  str_strip : string -> string;
  py_str : json -> string;
  int_of_str : string -> option Z;
  ip_address : string -> result IPAddress;
  gethostbyname_ex : history -> string -> result (list string);
  http : history -> string -> list (string * json) -> result Response;
  play_app : history -> string -> result json;
  play_reviews : history -> json -> result json;
  llm : history -> string -> result json;
  completion_rank : history -> nat -> nat
}.

(** ** Computations: exceptions over a history *)

Definition M (A : Type) : Type := history -> result A * history.

Definition ret {A} (a : A) : M A := fun h => (Ok a, h).

Definition bind {A B} (m : M A) (k : A -> M B) : M B :=
  fun h =>
    match m h with
    | (Ok a, h') => k a h'
    | (Raise e, h') => (Raise e, h')
    end.

Definition lift {A} (r : result A) : M A := fun h => (r, h).

Definition emit (e : event) : M unit := fun h => (Ok tt, e :: h).

(** [try: body  except Exception as e: handler] *)
Definition try_except {A} (body : M A) (handler : exn -> M A) : M A :=
  fun h =>
    match body h with
    | (Ok a, h') => (Ok a, h')
    | (Raise e, h') => handler e h'
    end.

Declare Scope comp_scope.
Delimit Scope comp_scope with comp.
Notation "x <- c ;; k" := (bind c (fun x => k))
  (at level 100, c at next level, right associativity) : comp_scope.
Notation "' p <- c ;; k" := (bind c (fun x => let p := x in k))
  (at level 100, p pattern, c at next level, right associativity) : comp_scope.
Notation "c ;; k" := (bind c (fun _ => k))
  (at level 100, right associativity) : comp_scope.
Notation "x <~ r ;; k" := (rbind r (fun x => k))
  (at level 100, r at next level, right associativity) : comp_scope.
Open Scope comp_scope.

(** the events a computation added, newest first *)
Definition added (before after : history) : history :=
  firstn (List.length after - List.length before) after.

(** ** The normalized record *)

Record OpportunityRecord := {
  rec_id : json;
  rec_text : string;
  rec_url : json;
  rec_source : string
}.

Section Program.

Variable W : World.

(** how an f-string renders a value *)
Definition fmt (v : json) : string :=
  match v with
  | JStr s => s
  | _ => py_str W v
  end.

(** [v.lower()] *)
Definition py_lower (v : json) : result string :=
  match v with
  | JStr s => Ok (str_lower W s)
  | _ => Raise AttributeError
  end.

(** [v.strip()] *)
Definition py_strip (v : json) : result string :=
  match v with
  | JStr s => Ok (str_strip W s)
  | _ => Raise AttributeError
  end.

(** a GET that reports its outcome as a value *)
Definition fetch (url : string) (params : list (string * json))
  : M (result Response) :=
  fun h => (Ok (http W h url params), Get url params :: h).

(** a GET whose failure propagates *)
Definition requests_get (url : string) (params : list (string * json))
  : M Response :=
  r <- fetch url params ;; lift r.

(** ** 1. SecurityManager *)

Definition ALLOWED_DOMAINS : list string :=
  [ "hacker-news.firebaseio.com";
    "reddit.com"; "www.reddit.com"; "old.reddit.com";
    "itunes.apple.com"; "apps.apple.com" ].

Definition is_allowed (host : string) : bool :=
  existsb (fun allowed =>
             String.eqb host allowed || endswith host ("." ++ allowed))
          ALLOWED_DOMAINS.

Fixpoint check_ips (ip_list : list string) : result bool :=
  match ip_list with
  | [] => Ok true
  | ip :: rest =>
      ip_obj <~ ip_address W ip ;;
      if is_private ip_obj || is_loopback ip_obj then Ok false
      else check_ips rest
  end.

Definition resolve (host : string) : M (list string) :=
  fun h => (gethostbyname_ex W h host, Dns host :: h).

(** the [try] block of [is_safe_url] *)
Definition validate (url : string) : M bool :=
  parsed <- lift (urlparse W url) ;;
  if negb (String.eqb (scheme parsed) "https") then ret false
  else
    host <- lift (match hostname parsed with
                  | Some s => Ok (str_lower W s)
                  | None => Raise AttributeError
                  end) ;;
    if negb (is_allowed host) then ret false
    else
      ip_list <- resolve host ;;
      lift (check_ips ip_list).

Definition is_safe_url (url : string) : M bool :=
  verdict <- try_except (validate url) (fun _ => ret false) ;;
  emit (Gate url verdict) ;;
  ret verdict.

(** ** 2. Scraping engines *)

(** *** Engine A: Hacker News *)

Definition keywords : list string :=
  [ "how to"; "alternative"; "wish"; "sucks"; "problem"; "hard to" ].

(** [any(k in title.lower() or k in text.lower() for k in keywords)] *)
Fixpoint any_keyword (title body_text : json) (ks : list string)
  : result bool :=
  match ks with
  | [] => Ok false
  | k :: rest =>
      t <~ py_lower title ;;
      if contains k t then Ok true
      else
        x <~ py_lower body_text ;;
        if contains k x then Ok true
        else any_keyword title body_text rest
  end.

(** the body of the loop over [responses], after the status test *)
Definition hn_story (r : Response) : result (option OpportunityRecord) :=
  story <~ body r ;;
  text0 <~ py_get story "text" (JStr "") ;;
  let body_text := py_or text0 (JStr "") in
  title0 <~ py_get story "title" (JStr "") ;;
  let title := py_or title0 (JStr "") in
  hit <~ any_keyword title body_text keywords ;;
  if hit then
    sid <~ py_get story "id" JNull ;;
    excerpt <~ py_slice body_text 200 ;;
    Ok (Some {| rec_id := JStr (fmt sid);
                rec_text := "[HN] " ++ fmt title ++ " - " ++ fmt excerpt;
                rec_url := JStr ("https://news.ycombinator.com/item?id="
                                 ++ fmt sid);
                rec_source := "Hacker News" |})
  else Ok None.

Definition push (o : option OpportunityRecord)
                (opportunities : list OpportunityRecord)
  : list OpportunityRecord :=
  match o with
  | Some x => opportunities ++ [x]
  | None => opportunities
  end.

(** [for r in responses: ...] *)
Fixpoint hn_collect (responses : list (result Response))
                    (opportunities : list OpportunityRecord)
  : result (list OpportunityRecord) :=
  match responses with
  | [] => Ok opportunities
  | Raise _ :: rest => hn_collect rest opportunities
  | Ok r :: rest =>
      if negb (status_code r =? 200) then hn_collect rest opportunities
      else
        o <~ hn_story r ;;
        hn_collect rest (push o opportunities)
  end.

Definition item_url (sid : json) : string :=
  "https://hacker-news.firebaseio.com/v0/item/" ++ fmt sid ++ ".json".

(** [for sid in story_ids: ...], building [tasks] *)
Fixpoint schedule (story_ids : list json) (tasks : list string)
  : M (list string) :=
  match story_ids with
  | [] => ret tasks
  | sid :: rest =>
      safe <- is_safe_url (item_url sid) ;;
      schedule rest (if safe then tasks ++ [item_url sid] else tasks)
  end.

(** [asyncio.gather] over [tasks] with [return_exceptions=True]: the requests are
    issued in task order; they complete in an order the world chooses
    ([completion_rank]); each completion stores its outcome in the slot of
    its task; the slots are the value of the [await]. *)

Fixpoint issue (tasks : list string) : M (list (result Response)) :=
  match tasks with
  | [] => ret []
  | url :: rest =>
      r <- fetch url [] ;;
      rs <- issue rest ;;
      ret (r :: rs)
  end.

Fixpoint insert_by (rank : nat -> nat) (i : nat) (l : list nat) : list nat :=
  match l with
  | [] => [i]
  | j :: rest =>
      if (rank i <=? rank j)%nat then i :: l else j :: insert_by rank i rest
  end.

Definition completion_order (rank : nat -> nat) (n : nat) : list nat :=
  fold_right (insert_by rank) [] (seq 0 n).

Fixpoint store {A} (i : nat) (x : A) (slots : list (option A))
  : list (option A) :=
  match slots, i with
  | [], _ => []
  | _ :: rest, O => Some x :: rest
  | s :: rest, S i' => s :: store i' x rest
  end.

Definition complete {A} (outcomes : list A) (slots : list (option A))
                    (i : nat) : list (option A) :=
  match nth_error outcomes i with
  | Some x => store i x slots
  | None => slots
  end.

Fixpoint filled {A} (slots : list (option A)) : list A :=
  match slots with
  | [] => []
  | Some x :: rest => x :: filled rest
  | None :: rest => filled rest
  end.

Definition reassemble {A} (order : list nat) (outcomes : list A) : list A :=
  filled (fold_left (complete outcomes) order
                    (repeat None (List.length outcomes))).

Definition gather (tasks : list string) : M (list (result Response)) :=
  fun h =>
    match issue tasks h with
    | (Ok outcomes, h') =>
        (Ok (reassemble
               (completion_order (completion_rank W h) (List.length outcomes))
               outcomes), h')
    | (Raise e, h') => (Raise e, h')
    end.

Definition hn_listing_url : string :=
  "https://hacker-news.firebaseio.com/v0/askstories.json".

Definition scrape_hn_opportunities (limit : Z)
  : M (list OpportunityRecord) :=
  safe <- is_safe_url hn_listing_url ;;
  if negb safe then ret []
  else
    try_except
      (emit Sleep ;;
       resp <- requests_get hn_listing_url [] ;;
       listing <- lift (body resp) ;;
       sliced <- lift (py_slice listing limit) ;;
       story_ids <- lift (py_iter sliced) ;;
       tasks <- schedule story_ids [] ;;
       responses <- gather tasks ;;
       lift (hn_collect responses []))
      (fun _ => ret []).

(** *** Engine B: Reddit *)

Definition attempts : nat := 3.

(** the body of [for post in posts] *)
Definition reddit_post (clean_sub : string) (post : json)
  : result (option OpportunityRecord) :=
  p_data <~ py_get post "data" (JObj []) ;;
  title <~ py_get p_data "title" (JStr "") ;;
  selftext <~ py_get p_data "selftext" (JStr "") ;;
  stickied <~ py_get p_data "stickied" JNull ;;
  if truthy stickied then Ok None
  else
    n <~ py_len title ;;
    if n <? 10 then Ok None
    else
      pid <~ py_get p_data "id" JNull ;;
      excerpt <~ py_slice selftext 200 ;;
      permalink <~ py_get p_data "permalink" JNull ;;
      Ok (Some {| rec_id := pid;
                  rec_text := "[Reddit r/" ++ clean_sub ++ "] " ++ fmt title
                              ++ " - " ++ fmt excerpt;
                  rec_url := JStr ("https://reddit.com" ++ fmt permalink);
                  rec_source := "Reddit r/" ++ clean_sub |}).

(** a [for] loop whose body appends at most one record to the shared
    [opportunities] list: records appended before an iteration raises stay
    in the list *)
Fixpoint append_each (step : json -> result (option OpportunityRecord))
                     (items : list json)
                     (opportunities : list OpportunityRecord)
  : list OpportunityRecord * result unit :=
  match items with
  | [] => (opportunities, Ok tt)
  | x :: rest =>
      match step x with
      | Ok o => append_each step rest (push o opportunities)
      | Raise e => (opportunities, Raise e)
      end
  end.

(** [for post in posts: ...] *)
Definition reddit_posts (clean_sub : string) (posts : list json)
                        (opportunities : list OpportunityRecord)
  : list OpportunityRecord * result unit :=
  append_each (reddit_post clean_sub) posts opportunities.

(** the [posts] of a 200 response *)
Definition reddit_children (resp : Response) : result (list json) :=
  data <~ body resp ;;
  inner <~ py_get data "data" (JObj []) ;;
  posts <~ py_get inner "children" (JList []) ;;
  _ <~ py_len posts ;;            (* logged: Posts found *)
  py_iter posts.

(** the [try] block of one attempt, given the outcome of [requests.get];
    the boolean is [success] *)
Definition reddit_attempt (clean_sub : string) (outcome : result Response)
                          (opportunities : list OpportunityRecord)
  : list OpportunityRecord * bool :=
  match outcome with
  | Raise _ => (opportunities, false)
  | Ok resp =>
      if status_code resp =? 200 then
        match reddit_children resp with
        | Raise _ => (opportunities, false)
        | Ok posts =>
            match reddit_posts clean_sub posts opportunities with
            | (opportunities', Ok _) => (opportunities', true)
            | (opportunities', Raise _) => (opportunities', false)
            end
        end
      else (opportunities, false)
  end.

(** [for attempt in range(1, attempts + 1): ...] *)
Fixpoint retry_loop (json_url clean_sub : string) (range : list nat)
                    (opportunities : list OpportunityRecord)
  : M (list OpportunityRecord * bool) :=
  match range with
  | [] => ret (opportunities, false)
  | attempt :: rest =>
      emit Choice ;;
      outcome <- fetch json_url [] ;;
      let (opportunities', success) :=
        reddit_attempt clean_sub outcome opportunities in
      if success then ret (opportunities', true)
      else
        (if (attempt <? attempts)%nat then emit Sleep else ret tt) ;;
        retry_loop json_url clean_sub rest opportunities'
  end.

Definition reddit_url (clean_sub : string) : string :=
  "https://www.reddit.com/r/" ++ clean_sub ++ "/hot.json?limit=25".

(** [for sub in subreddits: ...] *)
Fixpoint reddit_subs (subs : list json)
                     (opportunities : list OpportunityRecord)
  : M (list OpportunityRecord) :=
  match subs with
  | [] => ret opportunities
  | sub :: rest =>
      clean_sub <- lift (py_strip sub) ;;
      safe <- is_safe_url (reddit_url clean_sub) ;;
      if negb safe then reddit_subs rest opportunities
      else
        r <- retry_loop (reddit_url clean_sub) clean_sub
                        (seq 1 attempts) opportunities ;;
        reddit_subs rest (fst r)
  end.

Definition scrape_reddit_rss (subreddits : json)
  : M (list OpportunityRecord) :=
  subs <- lift (py_iter subreddits) ;;
  reddit_subs subs [].

(** *** Engine C: app reviews *)

Definition id_char (c : ascii) : bool :=
  let n := nat_of_ascii c in
  ((97 <=? n) && (n <=? 122) || (65 <=? n) && (n <=? 90)
   || (48 <=? n) && (n <=? 57) || (n =? 95) || (n =? 46))%nat.

Fixpoint take_while (p : ascii -> bool) (s : string) : string :=
  match s with
  | String c s' => if p c then String c (take_while p s') else EmptyString
  | EmptyString => EmptyString
  end.

(** group 1 of [re.search(r'details\?id=([a-zA-Z0-9_.]+)', s)] *)
Fixpoint search_details (s : string) : option string :=
  match s with
  | EmptyString => None
  | String _ s' =>
      if startswith s "details?id=" then
        match take_while id_char (drop 11 s) with
        | EmptyString => search_details s'
        | gid => Some gid
        end
      else search_details s'
  end.

Definition play_search_url (query : json) : string :=
  "https://play.google.com/store/search?q=" ++ fmt query ++ "&c=apps".

Definition search_google_play_manual (query : json) : M (option string) :=
  try_except
    (resp <- requests_get (play_search_url query) [] ;;
     if status_code resp =? 200 then ret (search_details (text resp))
     else ret None)
    (fun _ => ret None).

Record AppResolution := {
  platform : string;
  app_id : json;
  title : json;
  app_url : json
}.

Definition play_app_call (gp_id : string) : M json :=
  fun h => (play_app W h gp_id, PlayApp gp_id :: h).

Definition play_reviews_call (i : json) : M json :=
  fun h => (play_reviews W h i, PlayReviews i :: h).

Definition try_android (name : json) : M (option AppResolution) :=
  try_except
    (gp_id <- search_google_play_manual name ;;
     match gp_id with
     | Some gid =>
         if negb (String.eqb gid "") then
           t <- try_except
                  (app_details <- play_app_call gid ;;
                   lift (py_get app_details "title" name))
                  (fun _ => ret name) ;;
           ret (Some {| platform := "android";
                        app_id := JStr gid;
                        title := t;
                        app_url :=
                          JStr ("https://play.google.com/store/apps/details?id="
                                ++ gid) |})
         else ret None
     | None => ret None
     end)
    (fun _ => ret None).

Definition itunes_search_url : string := "https://itunes.apple.com/search".

Definition try_ios (name : json) : M (option AppResolution) :=
  try_except
    (resp <- requests_get itunes_search_url
               [("term", name); ("entity", JStr "software");
                ("limit", JInt 1)] ;;
     data <- lift (body resp) ;;
     count <- lift (py_item data "resultCount") ;;
     positive <- lift (py_gt0 count) ;;
     if positive then
       results <- lift (py_item data "results") ;;
       first <- lift (py_first results) ;;
       track_id <- lift (py_item first "trackId") ;;
       track_name <- lift (py_item first "trackName") ;;
       track_url <- lift (py_item first "trackViewUrl") ;;
       ret (Some {| platform := "ios";
                    app_id := track_id;
                    title := track_name;
                    app_url := track_url |})
     else ret None)
    (fun _ => ret None).

Definition find_app (name platform_preference : json)
  : M (option AppResolution) :=
  if py_eq_str platform_preference "ios" then try_ios name
  else try_android name.

(** the body of [for r in result] *)
Definition android_review (app_info : AppResolution) (r : json)
  : result (option OpportunityRecord) :=
  content <~ py_get r "content" (JStr "") ;;
  n <~ py_len content ;;
  if 10 <? n then
    review_id <~ py_get r "reviewId" JNull ;;
    excerpt <~ py_slice content 300 ;;
    Ok (Some {| rec_id := review_id;
                rec_text := "[Android Review] " ++ fmt excerpt;
                rec_url := app_url app_info;
                rec_source := "Google Play (" ++ fmt (title app_info) ++ ")" |})
  else Ok None.

(** [entry.get(k, {}).get('label', d)] *)
Definition label (entry : json) (k : string) (d : json) : result json :=
  inner <~ py_get entry k (JObj []) ;;
  py_get inner "label" d.

(** the body of [for entry in entries] *)
Definition ios_review (app_info : AppResolution) (entry : json)
  : result (option OpportunityRecord) :=
  has_author <~ py_contains "author" entry ;;
  if negb has_author then Ok None
  else
    t <~ label entry "title" (JStr "") ;;
    content <~ label entry "content" (JStr "") ;;
    rating <~ label entry "im:rating" (JStr "?") ;;
    let full_text := fmt t ++ " - " ++ fmt content in
    if (10 <? String.length full_text)%nat then
      entry_id <~ label entry "id" JNull ;;
      Ok (Some {| rec_id := entry_id;
                  rec_text := "[iOS Review " ++ fmt rating ++ "/5] "
                              ++ take 300 full_text;
                  rec_url := app_url app_info;
                  rec_source := "App Store (" ++ fmt (title app_info) ++ ")" |})
    else Ok None.

Definition feed_url (app_info : AppResolution) : string :=
  "https://itunes.apple.com/us/rss/customerreviews/id="
  ++ fmt (app_id app_info) ++ "/sortBy=mostRecent/json".

(** the [try] block of [scrape_reviews]: what [opportunities] holds when
    the block is left, and how a loop of the block was left; an exception
    before the loops leaves [opportunities] empty *)
Definition reviews_try (app_info : AppResolution)
  : M (list OpportunityRecord * result unit) :=
  if String.eqb (platform app_info) "android" then
    result <- play_reviews_call (app_id app_info) ;;
    items <- lift (py_iter result) ;;
    ret (append_each (android_review app_info) items [])
  else if String.eqb (platform app_info) "ios" then
    resp <- requests_get (feed_url app_info) [] ;;
    data <- lift (body resp) ;;
    feed <- lift (py_get data "feed" (JObj [])) ;;
    entries <- lift (py_get feed "entry" (JList [])) ;;
    items <- lift (py_iter entries) ;;
    ret (append_each (ios_review app_info) items [])
  else ret ([], Ok tt).

(** [opportunities] after the [try] block and its [except] *)
Definition accumulated (r : result (list OpportunityRecord * result unit))
  : list OpportunityRecord :=
  match r with
  | Ok (opportunities, _) => opportunities
  | Raise _ => []
  end.

Definition fetch_reviews (app_info : AppResolution)
  : M (list OpportunityRecord) :=
  fun h =>
    let (r, h') := reviews_try app_info h in
    (Ok (accumulated r), h').

(** [None] is the not-found signal *)
Definition scrape_reviews (target_app_name platform_preference : json)
  : M (option (list OpportunityRecord)) :=
  app_info <- find_app target_app_name platform_preference ;;
  match app_info with
  | None => ret None
  | Some info =>
      opportunities <- fetch_reviews info ;;
      ret (Some opportunities)
  end.

(** ** 3. Intelligence layer *)

Record EnhancedIdea := {
  name : json;
  pitch : json;
  source_text : string;
  source_url : json;
  source_origin : string
}.

(** [int(v)] *)
Definition py_int (v : json) : result Z :=
  match v with
  | JInt z => Ok z
  | JBool b => Ok (if b then 1 else 0)
  | JFloat q => Ok (Z.quot (Qnum q) (Zpos (Qden q)))
  | JNan => Raise ValueError
  | JInf _ => Raise OverflowError
  | JStr s =>
      match int_of_str W s with
      | Some z => Ok z
      | None => Raise ValueError
      end
  | _ => Raise TypeError
  end.

Definition input_line (i : nat) (item : OpportunityRecord) : string :=
  "ID: " ++ py_str W (JInt (Z.of_nat i)) ++ " | Content: " ++ rec_text item.

(** [for i, item in enumerate(...)], from index [i] on *)
Fixpoint input_lines (i : nat) (items : list OpportunityRecord)
  : list string :=
  match items with
  | [] => []
  | item :: rest => input_line i item :: input_lines (S i) rest
  end.

Definition input_data (collected_data : list OpportunityRecord)
  : list string :=
  input_lines 0 (firstn 30 collected_data).

Definition ask_model (data_str : string) : M json :=
  fun h => (llm W h data_str, Llm data_str :: h).

(** the inner [try] of the loop over [result], with its
    [except (ValueError, IndexError): continue] *)
Definition enrich (collected_data : list OpportunityRecord) (idea : json)
  : result (option EnhancedIdea) :=
  match
    (sid <~ py_get idea "source_id" (JInt (-1)) ;;
     idx <~ py_int sid ;;
     if (0 <=? idx) && (idx <? Z.of_nat (List.length collected_data)) then
       match nth_error collected_data (Z.to_nat idx) with
       | Some original =>
           n <~ py_item idea "name" ;;
           p <~ py_item idea "pitch" ;;
           Ok (Some {| name := n;
                       pitch := p;
                       source_text := rec_text original;
                       source_url := rec_url original;
                       source_origin := rec_source original |})
       | None => Raise IndexError
       end
     else Ok None)
  with
  | Raise ValueError => Ok None
  | Raise IndexError => Ok None
  | r => r
  end.

(** [for idea in result: ...] *)
Fixpoint enrich_all (collected_data : list OpportunityRecord)
                    (ideas : list json) (enhanced_ideas : list EnhancedIdea)
  : result (list EnhancedIdea) :=
  match ideas with
  | [] => Ok enhanced_ideas
  | idea :: rest =>
      o <~ enrich collected_data idea ;;
      enrich_all collected_data rest
                 (match o with
                  | Some e => enhanced_ideas ++ [e]
                  | None => enhanced_ideas
                  end)
  end.

Definition generate_business_ideas (collected_data : list OpportunityRecord)
  : M (list EnhancedIdea) :=
  match collected_data with
  | [] => ret []
  | _ =>
      let data_str := join newline (input_data collected_data) in
      try_except
        (reply <- ask_model data_str ;;
         result <- lift (py_get reply "ideas" (JList [])) ;;
         ideas <- lift (py_iter result) ;;
         lift (enrich_all collected_data ideas []))
        (fun _ => ret [])
  end.

(** ** Routes *)

Inductive payload : Type :=
| Error (message : string)
| Ideas (raw_count : nat) (ideas : list EnhancedIdea).

Definition reply : Type := Z * payload.

Definition in_strs (v : json) (l : list string) : bool :=
  existsb (py_eq_str v) l.

Definition is_list (v : json) : bool :=
  match v with JList _ => true | _ => false end.

(** [any(v)] for a list [v] *)
Definition py_any (v : json) : bool :=
  match v with
  | JList l => existsb truthy l
  | _ => false
  end.

Definition default_subreddits : json := JList [JStr "SaaS"; JStr "startups"].

(** [# Analyze] and the success response *)
Definition analyze (collected_data : list OpportunityRecord) : M reply :=
  ideas <- generate_business_ideas collected_data ;;
  ret (200, Ideas (List.length collected_data) ideas).

(** the [if source in ['reviews']] block and what follows it *)
Definition reviews_part (data source : json)
                        (collected_data : list OpportunityRecord) : M reply :=
  if in_strs source ["reviews"] then
    app_name <- lift (py_get data "app_name" (JStr "")) ;;
    blank <- (if negb (truthy app_name) then ret true
              else stripped <- lift (py_strip app_name) ;;
                   ret (String.eqb stripped "")) ;;
    if (blank : bool) then
      ret (400, Error "App Name cannot be empty for Reviews source")
    else
      pref <- lift (py_get data "platform" (JStr "android")) ;;
      reviews <- scrape_reviews app_name pref ;;
      match reviews with
      | None =>
          ret (404, Error ("App '" ++ fmt app_name ++ "' not found in "
                           ++ fmt pref ++ " store(s)."))
      | Some l => analyze (collected_data ++ l)
      end
  else analyze collected_data.

(** the [if source in ['reddit', 'all']] block and what follows it *)
Definition reddit_part (data source : json)
                       (collected_data : list OpportunityRecord) : M reply :=
  if in_strs source ["reddit"; "all"] then
    subs <- lift (py_get data "subreddits" (JList [])) ;;
    if py_eq_str source "reddit"
       && (negb (truthy subs) || (is_list subs && negb (py_any subs)))
    then ret (400, Error "Subreddits list cannot be empty for Reddit source")
    else
      let subs := if negb (truthy subs) then default_subreddits else subs in
      l <- scrape_reddit_rss subs ;;
      reviews_part data source (collected_data ++ l)
  else reviews_part data source collected_data.

Definition generate (data : json) : M reply :=
  if negb (truthy data) then ret (400, Error "Invalid JSON payload")
  else
    source <- lift (py_get data "source" (JStr "all")) ;;
    collected_data <-
      (if in_strs source ["hn"; "all"] then scrape_hn_opportunities 20
       else ret []) ;;
    reddit_part data source collected_data.

(** the route with the application's handler for unhandled exceptions *)
Definition endpoint (data : json) (h : history) : reply * history :=
  match generate data h with
  | (Ok r, h') => (r, h')
  | (Raise _, h') =>
      ((500, Error "Something went wrong on the server. Please try again later."),
       h')
  end.

End Program.

Arguments ALLOWED_DOMAINS : simpl never.

(** * A test double for the outside world *)

Module Demo.

Definition lower_char (c : ascii) : ascii :=
  let n := nat_of_ascii c in
  if ((65 <=? n) && (n <=? 90))%nat then ascii_of_nat (n + 32) else c.

Fixpoint ascii_lower (s : string) : string :=
  match s with
  | EmptyString => EmptyString
  | String c s' => String (lower_char c) (ascii_lower s')
  end.

Definition host_char (c : ascii) : bool :=
  let n := nat_of_ascii c in
  negb ((n =? 47) || (n =? 63) || (n =? 35) || (n =? 58))%nat.

(** enough of [urlparse] for [scheme://host/path] *)
Definition simple_urlparse (url : string) : result ParseResult :=
  if startswith url "https://" then
    Ok {| scheme := "https";
          hostname := Some (take_while host_char (drop 8 url)) |}
  else if startswith url "http://" then
    Ok {| scheme := "http";
          hostname := Some (take_while host_char (drop 7 url)) |}
  else Ok {| scheme := ""; hostname := None |}.

Definition simple_str (v : json) : string :=
  match v with
  | JInt z => NilZero.string_of_int (Z.to_int z)
  | JNull => "None"
  | JStr s => s
  | _ => "?"
  end.

Definition simple_ip (ip : string) : result IPAddress :=
  if String.eqb ip "127.0.0.1" then
    Ok {| is_private := true; is_loopback := true |}
  else if startswith ip "10." then
    Ok {| is_private := true; is_loopback := false |}
  else Ok {| is_private := false; is_loopback := false |}.

(** a world whose DNS answers one public address and whose network and
    model are the given functions *)
Definition world
    (net : history -> string -> list (string * json) -> result Response)
    (model : history -> string -> result json) : World :=
  {| urlparse := simple_urlparse;
     str_lower := ascii_lower;
     str_strip := fun s => s;
     py_str := simple_str;
     int_of_str := fun _ => None;
     ip_address := simple_ip;
     gethostbyname_ex := fun _ _ => Ok ["151.101.1.140"];
     http := net;
     play_app := fun _ _ => Raise IOError;
     play_reviews := fun _ _ => Raise IOError;
     llm := model;
     completion_rank := fun _ i => (7 - i)%nat |}.

Definition page (code : Z) (b : result json) : result Response :=
  Ok {| status_code := code; text := ""; body := b |}.

Definition offline : history -> string -> list (string * json) -> result Response :=
  fun _ _ _ => Raise IOError.

Definition mute : history -> string -> result json :=
  fun _ _ => Raise IOError.

End Demo.

(** * Specification vocabulary *)

(** the host is an allowlisted domain or a subdomain of one *)
Definition allowlisted (host : string) : Prop :=
  exists d, In d ALLOWED_DOMAINS /\ (host = d \/ exists p, host = p ++ "." ++ d).

(** the address parses and is neither private nor loopback *)
Definition public (W : World) (ip : string) : Prop :=
  exists ip_obj,
    ip_address W ip = Ok ip_obj
    /\ is_private ip_obj = false /\ is_loopback ip_obj = false.

(** what the gate is meant to accept, with the DNS answer of the moment *)
Definition safe (W : World) (h : history) (url : string) : Prop :=
  exists parsed host ip_list,
    urlparse W url = Ok parsed
    /\ scheme parsed = "https"
    /\ hostname parsed = Some host
    /\ allowlisted (str_lower W host)
    /\ gethostbyname_ex W h (str_lower W host) = Ok ip_list
    /\ Forall (public W) ip_list.

(** the event is a gate check of [url] that answered true *)
Definition is_pass (url : string) (e : event) : bool :=
  match e with
  | Gate u true => String.eqb u url
  | _ => false
  end.

(** the history holds a gate check of [url] that answered true *)
Definition passed (url : string) (h : history) : bool :=
  existsb (is_pass url) h.

(** every GET of a history has an older gate check of its URL that
    answered true *)
Fixpoint gated (h : history) : bool :=
  match h with
  | [] => true
  | Get url _ :: older => passed url older && gated older
  | _ :: older => gated older
  end.

(** a computation only adds events *)
Definition grows {A} (m : M A) : Prop :=
  forall h, exists evs, snd (m h) = (evs ++ h)%list.

(** a computation whose first event is [e] *)
Definition opens {A} (e : event) (m : M A) : Prop :=
  forall h, exists evs, snd (m h) = (evs ++ e :: h)%list.

Definition is_get (e : event) : bool :=
  match e with Get _ _ => true | _ => false end.

Definition is_sleep (e : event) : bool :=
  match e with Sleep => true | _ => false end.

(** the request the review harvest begins with *)
Definition store_search (W : World) (name pref : json) : event :=
  if py_eq_str pref "ios" then
    Get itunes_search_url
        [("term", name); ("entity", JStr "software"); ("limit", JInt 1)]
  else Get (play_search_url W name) [].

(** the number of GETs of a history *)
Definition requests (h : history) : nat :=
  List.length (filter is_get h).

(** the number of sleeps of a history *)
Definition sleeps (h : history) : nat :=
  List.length (filter is_sleep h).

(** the history after [k] attempts that did not succeed and were each
    followed by the backoff sleep *)
Fixpoint before_attempt (url : string) (h : history) (k : nat) : history :=
  match k with
  | O => h
  | S k' => Sleep :: Get url [] :: Choice :: before_attempt url h k'
  end.

(** what the world answers to attempt number [k + 1] *)
Definition answer (W : World) (url : string) (h : history) (k : nat)
  : result Response :=
  http W (Choice :: before_attempt url h k) url [].

(** [success] after the [try] block of an attempt *)
Definition succeeded (W : World) (clean_sub : string)
                     (outcome : result Response) : bool :=
  snd (reddit_attempt W clean_sub outcome []).

(** the answer is an OK status *)
Definition ok_status (outcome : result Response) : bool :=
  match outcome with
  | Ok resp => status_code resp =? 200
  | Raise _ => false
  end.

(** the record an answer contributes *)
Definition kept (W : World) (outcome : result Response)
  : list OpportunityRecord :=
  match outcome with
  | Ok resp =>
      if status_code resp =? 200 then
        match hn_story W resp with
        | Ok (Some x) => [x]
        | _ => []
        end
      else []
  | Raise _ => []
  end.

(** the same world with another order of completion *)
Definition with_rank (W : World) (rank : history -> nat -> nat) : World :=
  {| urlparse := urlparse W;
     str_lower := str_lower W;
     str_strip := str_strip W;
     py_str := py_str W;
     int_of_str := int_of_str W;
     ip_address := ip_address W;
     gethostbyname_ex := gethostbyname_ex W;
     http := http W;
     play_app := play_app W;
     play_reviews := play_reviews W;
     llm := llm W;
     completion_rank := rank |}.

(** the records of the items of a loop whose body appends at most one
    record, up to the first item on which the body raises *)
Fixpoint records_before (step : json -> result (option OpportunityRecord))
                        (items : list json) : list OpportunityRecord :=
  match items with
  | [] => []
  | x :: rest =>
      match step x with
      | Ok (Some r) => r :: records_before step rest
      | Ok None => records_before step rest
      | Raise _ => []
      end
  end.

(** the body of the loop raises on none of the items *)
Definition raises_on_none (step : json -> result (option OpportunityRecord))
                          (items : list json) : bool :=
  forallb (fun x => match step x with Ok _ => true | Raise _ => false end)
          items.

(** the posts of an answer: it has the OK status and its body holds a
    feed *)
Definition feed_posts (outcome : result Response) : option (list json) :=
  match outcome with
  | Ok resp =>
      if status_code resp =? 200 then
        match reddit_children resp with
        | Ok posts => Some posts
        | Raise _ => None
        end
      else None
  | Raise _ => None
  end.


(** the records an answer gives: those of its posts, up to the first post
    that does not parse *)
Definition parsed (W : World) (clean_sub : string)
                  (outcome : result Response) : list OpportunityRecord :=
  match feed_posts outcome with
  | Some posts => records_before (reddit_post W clean_sub) posts
  | None => []
  end.

(** the verdicts of the gate on [urls], checked one after the other, and
    the history after the last check *)
Fixpoint gate_each (W : World) (urls : list string) (h : history)
  : list bool * history :=
  match urls with
  | [] => ([], h)
  | u :: rest =>
      let v := match fst (is_safe_url W u h) with
               | Ok b => b
               | Raise _ => false
               end in
      let (vs, h') := gate_each W rest (snd (is_safe_url W u h)) in
      (v :: vs, h')
  end.

(** the URLs whose verdict is true, in the order of [urls] *)
Definition passing (urls : list string) (verdicts : list bool)
  : list string :=
  map fst (filter snd (combine urls verdicts)).

(** what the network answers to GETs of [urls] issued one after the other *)
Fixpoint answers (W : World) (h : history) (urls : list string)
  : list (result Response) :=
  match urls with
  | [] => []
  | u :: rest => http W h u [] :: answers W (Get u [] :: h) rest
  end.

(** the gate checks of a stretch of history, oldest first *)
Definition checks (evs : history) : list (string * bool) :=
  flat_map (fun e => match e with Gate u v => [(u, v)] | _ => [] end)
           (rev evs).

(** the URLs of the GETs of a stretch of history, oldest first *)
Definition fetched (evs : history) : list string :=
  flat_map (fun e => match e with Get u _ => [u] | _ => [] end) (rev evs).

(** an answer with the OK status from which no story can be read: the
    body is not JSON, not an object, or holds a title or text that is
    not a string *)
Definition unreadable (W : World) (outcome : result Response) : bool :=
  match outcome with
  | Ok resp =>
      (status_code resp =? 200)
      && match hn_story W resp with
         | Ok _ => false
         | Raise _ => true
         end
  | Raise _ => false
  end.

(** the one call the fetch stage of the review harvest makes for a
    resolved app *)
Definition review_request (W : World) (info : AppResolution) : event :=
  if String.eqb (platform info) "android" then PlayReviews (app_id info)
  else Get (feed_url W info) [].

(** the reviews the store of a resolved app answers with, or the
    exception met on the way to them *)
Definition store_reviews (W : World) (info : AppResolution) (h : history)
  : result (list json) :=
  if String.eqb (platform info) "android" then
    result <~ play_reviews W h (app_id info) ;;
    py_iter result
  else
    resp <~ http W h (feed_url W info) [] ;;
    data <~ body resp ;;
    feed <~ py_get data "feed" (JObj []) ;;
    entries <~ py_get feed "entry" (JList []) ;;
    py_iter entries.

(** the record, if any, that one review of the store gives *)
Definition review_step (W : World) (info : AppResolution)
  : json -> result (option OpportunityRecord) :=
  if String.eqb (platform info) "android" then android_review W info
  else ios_review W info.

(** * Worlds and inputs for the examples *)

(** request bodies *)
Definition unknown_request : list (string * json) :=
  [("source", JStr "twitter")].

Definition reddit_no_subs : list (string * json) :=
  [("source", JStr "reddit"); ("subreddits", JList [])].

Definition all_no_subs : list (string * json) := [("source", JStr "all")].

Definition ghost_request : list (string * json) :=
  [("source", JStr "reviews"); ("app_name", JStr "ghost");
   ("platform", JStr "ios")].

(** the store knows no such app *)
Definition empty_store : World :=
  Demo.world
    (fun _ _ _ =>
       Demo.page 200 (Ok (JObj [("resultCount", JInt 0);
                                ("results", JList [])])))
    Demo.mute.

(** the store knows the app, and its review feed has no entry *)
Definition silent_store : World :=
  Demo.world
    (fun _ url _ =>
       if String.eqb url itunes_search_url then
         Demo.page 200
           (Ok (JObj [("resultCount", JInt 1);
                      ("results",
                       JList [JObj [("trackId", JInt 42);
                                    ("trackName", JStr "Ghost");
                                    ("trackViewUrl",
                                     JStr "https://apps.apple.com/app/id42")]])]))
       else Demo.page 200 (Ok (JObj [("feed", JObj [])])))
    Demo.mute.

(** the store search for the app name [ghost] *)
Definition ghost_search : event :=
  Get itunes_search_url
      [("term", JStr "ghost"); ("entity", JStr "software"); ("limit", JInt 1)].

(** collected records, numbered *)
Definition complaint (i : nat) : OpportunityRecord :=
  {| rec_id := JInt (Z.of_nat i);
     rec_text := "complaint " ++ Demo.simple_str (JInt (Z.of_nat i));
     rec_url := JStr "https://reddit.com/r/x";
     rec_source := "Reddit r/x" |}.

Definition complaints (n : nat) : list OpportunityRecord :=
  map complaint (seq 0 n).

(** an idea as the model returns it *)
Definition idea (label : string) (source_id : Z) : json :=
  JObj [("name", JStr label); ("pitch", JStr "pitch");
        ("source_id", JInt source_id)].

(** the model cites the records numbered 30, 31 and 2 *)
Definition oracle : World :=
  Demo.world Demo.offline
    (fun _ _ => Ok (JObj [("ideas",
                           JList [idea "A" 30; idea "B" 31; idea "C" 2])])).


(** the feed of the community [b] *)
Definition feed_of_b : json :=
  JObj [("data",
         JObj [("children",
                JList [JObj [("data",
                              JObj [("title", JStr "I wish this existed");
                                    ("selftext", JStr "please");
                                    ("id", JStr "t3");
                                    ("permalink", JStr "/r/b/t3")])]])])].

(** the community [a] is always refused, the community [b] answers *)
Definition two_communities : World :=
  Demo.world
    (fun _ url _ =>
       if String.eqb url (reddit_url "b") then Demo.page 200 (Ok feed_of_b)
       else Demo.page 503 (Raise ValueError))
    Demo.mute.

(** the record of the only post of the community [b] *)
Definition wish : OpportunityRecord :=
  {| rec_id := JStr "t3";
     rec_text := "[Reddit r/b] I wish this existed - please";
     rec_url := JStr "https://reddit.com/r/b/t3";
     rec_source := "Reddit r/b" |}.

(** the first two requests are rate limited, the third is answered *)
Definition flaky : World :=
  Demo.world
    (fun h _ _ =>
       if (2 <=? requests h)%nat then Demo.page 200 (Ok feed_of_b)
       else Demo.page 429 (Raise ValueError))
    Demo.mute.

(** a story as the item endpoint returns it *)
Definition hn_item (i : Z) (headline : string) : json :=
  JObj [("id", JInt i); ("title", JStr headline); ("text", JStr "details")].

(** a listing of three stories; the second detail fetch is refused *)
Definition hn_world : World :=
  Demo.world
    (fun _ url _ =>
       if String.eqb url hn_listing_url then
         Demo.page 200 (Ok (JList [JInt 1; JInt 2; JInt 3]))
       else if String.eqb url "https://hacker-news.firebaseio.com/v0/item/1.json"
       then Demo.page 200 (Ok (hn_item 1 "How to invoice clients"))
       else if String.eqb url "https://hacker-news.firebaseio.com/v0/item/3.json"
       then Demo.page 200 (Ok (hn_item 3 "I wish there was a better CRM"))
       else Demo.page 500 (Ok JNull))
    Demo.mute.

(** the answer of the listing endpoint in [hn_world] *)
Definition hn_listing : Response :=
  {| status_code := 200; text := "";
     body := Ok (JList [JInt 1; JInt 2; JInt 3]) |}.

(** an entry of a review feed *)
Definition review_entry (i words : string) : json :=
  JObj [("author", JObj [("name", JObj [("label", JStr "someone")])]);
        ("title", JObj [("label", JStr "Crashes")]);
        ("content", JObj [("label", JStr words)]);
        ("im:rating", JObj [("label", JStr "1")]);
        ("id", JObj [("label", JStr i)])].

(** the store knows the app; the second entry of its review feed is not
    an object *)
Definition half_read_store : World :=
  Demo.world
    (fun _ url _ =>
       if String.eqb url itunes_search_url then
         Demo.page 200
           (Ok (JObj [("resultCount", JInt 1);
                      ("results",
                       JList [JObj [("trackId", JInt 42);
                                    ("trackName", JStr "Ghost");
                                    ("trackViewUrl",
                                     JStr "https://apps.apple.com/app/id42")]])]))
       else
         Demo.page 200
           (Ok (JObj [("feed",
                       JObj [("entry",
                              JList [review_entry "r1" "on every start";
                                     JInt 5;
                                     review_entry "r3" "after the update"])])])))
    Demo.mute.

(** * Vocabulary of the further properties *)

(** [s] holds [k] as a substring *)
Definition mentions (k s : string) : Prop :=
  exists before after, s = before ++ k ++ after.

(** every character of [s] satisfies [p] *)
Fixpoint all_chars (p : ascii -> bool) (s : string) : bool :=
  match s with
  | EmptyString => true
  | String c s' => p c && all_chars p s'
  end.

(** [s] does not begin with a character that satisfies [p] *)
Definition stops (p : ascii -> bool) (s : string) : bool :=
  match s with
  | EmptyString => true
  | String c _ => negb (p c)
  end.

(** the value is a string *)
Definition is_str (v : json) : bool :=
  match v with JStr _ => true | _ => false end.

(** the value is a dict *)
Definition is_obj (v : json) : bool :=
  match v with JObj _ => true | _ => false end.

(** the answer of the item endpoint for the first story of [hn_world] *)
Definition first_story : Response :=
  {| status_code := 200; text := "";
     body := Ok (hn_item 1 "How to invoice clients") |}.

(** a record as the Hacker News harvest builds it *)
Definition hn_record (r : OpportunityRecord) : Prop :=
  rec_source r = "Hacker News"
  /\ exists sid excerpt,
       rec_id r = JStr sid
       /\ rec_url r = JStr ("https://news.ycombinator.com/item?id=" ++ sid)
       /\ rec_text r = "[HN] " ++ excerpt.

(** the body of the answer is not a JSON object *)
Definition no_story (resp : Response) : bool :=
  match body resp with
  | Ok (JObj _) => false
  | _ => true
  end.

(** the second story of the listing has been deleted: its item endpoint
    answers the OK status with the body null *)
Definition hn_deleted : World :=
  Demo.world
    (fun _ url _ =>
       if String.eqb url hn_listing_url then
         Demo.page 200 (Ok (JList [JInt 1; JInt 2]))
       else if String.eqb url "https://hacker-news.firebaseio.com/v0/item/1.json"
       then Demo.page 200 (Ok (hn_item 1 "How to invoice clients"))
       else Demo.page 200 (Ok JNull))
    Demo.mute.

(** the answer of the listing endpoint in [hn_deleted] *)
Definition short_listing : Response :=
  {| status_code := 200; text := ""; body := Ok (JList [JInt 1; JInt 2]) |}.

(** a record as the feed harvest builds it for one of the communities
    [names] *)
Definition reddit_record (W : World) (names : list string)
                         (r : OpportunityRecord) : Prop :=
  exists name permalink excerpt,
    In name names
    /\ rec_source r = "Reddit r/" ++ str_strip W name
    /\ rec_url r = JStr ("https://reddit.com" ++ permalink)
    /\ rec_text r = "[Reddit r/" ++ str_strip W name ++ "] " ++ excerpt.

(** a feed whose second post is not an object *)
Definition broken_feed : json :=
  JObj [("data",
         JObj [("children",
                JList [JObj [("data",
                              JObj [("title", JStr "I wish this existed");
                                    ("selftext", JStr "please");
                                    ("id", JStr "t3");
                                    ("permalink", JStr "/r/b/t3")])];
                       JInt 5])])].

(** the answer that carries [broken_feed] *)
Definition broken_page : Response :=
  {| status_code := 200; text := ""; body := Ok broken_feed |}.

(** every request is answered with [broken_page] *)
Definition stammer : World :=
  Demo.world (fun _ _ _ => Ok broken_page) Demo.mute.

(** a request for the feed source whose second community is a number *)
Definition mixed_request : list (string * json) :=
  [("source", JStr "reddit"); ("subreddits", JList [JStr "b"; JInt 5])].

(** the title of the Android resolution: the title of the app details, or
    the query when the details cannot be had *)
Definition android_title (W : World) (name : json) (h : history)
                         (gid : string) : json :=
  match play_app W h gid with
  | Ok app_details =>
      match py_get app_details "title" name with
      | Ok t => t
      | Raise _ => name
      end
  | Raise _ => name
  end.

(** the parameters of the iTunes search *)
Definition search_params (name : json) : list (string * json) :=
  [("term", name); ("entity", JStr "software"); ("limit", JInt 1)].

(** a record as the review harvest builds it for the resolved app *)
Definition review_record (W : World) (info : AppResolution)
                         (r : OpportunityRecord) : Prop :=
  rec_url r = app_url info
  /\ ((platform info = "android"
       /\ rec_source r = "Google Play (" ++ fmt W (title info) ++ ")"
       /\ exists excerpt, rec_text r = "[Android Review] " ++ excerpt)
      \/ (platform info = "ios"
          /\ rec_source r = "App Store (" ++ fmt W (title info) ++ ")"
          /\ exists rating excerpt,
               rec_text r = "[iOS Review " ++ rating ++ "/5] " ++ excerpt
               /\ (String.length excerpt <= 300)%nat)).

(** the idea carries the text, the URL and the label of a collected
    record *)
Definition cites (collected_data : list OpportunityRecord)
                 (e : EnhancedIdea) : Prop :=
  exists r,
    In r collected_data
    /\ source_text e = rec_text r
    /\ source_url e = rec_url r
    /\ source_origin e = rec_source r.

(** an idea that the loop over the ideas skips: its index is absent, is
    an integer outside the collected list, or is a string that [int]
    rejects *)
Definition skipped (W : World) (collected_data : list OpportunityRecord)
                   (fields : list (string * json)) : Prop :=
  lookup "source_id" fields = None
  \/ (exists idx,
         lookup "source_id" fields = Some (JInt idx)
         /\ (idx < 0 \/ Z.of_nat (List.length collected_data) <= idx))
  \/ (exists s,
         lookup "source_id" fields = Some (JStr s) /\ int_of_str W s = None).

(** an idea that ends the loop over the ideas with an exception: it is
    not an object, its index is null, or its index is in the collected
    list and it has no name or no pitch *)
Definition fatal (collected_data : list OpportunityRecord) (idea : json)
  : Prop :=
  is_obj idea = false
  \/ exists fields,
       idea = JObj fields
       /\ (lookup "source_id" fields = Some JNull
           \/ exists idx,
                lookup "source_id" fields = Some (JInt idx)
                /\ 0 <= idx < Z.of_nat (List.length collected_data)
                /\ (lookup "name" fields = None
                    \/ lookup "pitch" fields = None)).

(** the data string submitted for [collected_data] *)
Definition data_str (W : World) (collected_data : list OpportunityRecord)
  : string :=
  join newline (input_data W collected_data).

(** the model returns a good idea, an idea out of range and an idea whose
    index is null *)
Definition careless : World :=
  Demo.world Demo.offline
    (fun _ _ => Ok (JObj [("ideas",
                           JList [idea "A" 1; idea "B" 7;
                                  JObj [("name", JStr "C");
                                        ("pitch", JStr "pitch");
                                        ("source_id", JNull)]])])).

(** the model returns a good idea and an idea out of range *)
Definition wandering : World :=
  Demo.world Demo.offline
    (fun _ _ => Ok (JObj [("ideas", JList [idea "A" 1; idea "B" 7])])).

(** the message of the handler for unhandled exceptions *)
Definition generic_error : string :=
  "Something went wrong on the server. Please try again later.".

(** a reply the route may give for a source selector: success with ideas,
    400, or 404 when the selector is reviews *)
Definition well_formed (source : json) (r : reply) : Prop :=
  match r with
  | (code, Ideas _ _) => code = 200
  | (code, Error _) =>
      code = 400 \/ (code = 404 /\ py_eq_str source "reviews" = true)
  end.

(** requests whose communities are all blank *)
Definition reddit_blank_subs : list (string * json) :=
  [("source", JStr "reddit"); ("subreddits", JList [JStr ""; JNull])].

Definition all_blank_subs : list (string * json) :=
  [("source", JStr "all"); ("subreddits", JList [JStr ""; JNull])].

(** a request for reviews without an app name *)
Definition nameless_request : list (string * json) :=
  [("source", JStr "reviews"); ("platform", JStr "ios")].

(** a request without a source selector *)
Definition bare_request : list (string * json) :=
  [("subreddits", JList [JStr "b"])].

(** * Properties *)

(** ** Strings *)

Lemma take_drop (n : nat) (s : string) : take n s ++ drop n s = s.
Proof.
  revert s; induction n as [|n IH]; intros [|c s]; simpl; try reflexivity.
  now rewrite IH.
Qed.

Lemma string_length_app (s t : string) :
  String.length (s ++ t) = (String.length s + String.length t)%nat.
Proof. induction s as [|c s IH]; simpl; [reflexivity | now rewrite IH]. Qed.

Lemma drop_app (s t : string) : drop (String.length s) (s ++ t) = t.
Proof. induction s as [|c s IH]; simpl; [now destruct t | exact IH]. Qed.

Lemma endswith_spec (s suf : string) :
  endswith s suf = true <-> exists p, s = p ++ suf.
Proof.
  unfold endswith; rewrite andb_true_iff, Nat.leb_le, String.eqb_eq; split.
  - intros [_ E].
    exists (take (String.length s - String.length suf) s).
    rewrite <- (take_drop (String.length s - String.length suf) s) at 1.
    now rewrite E.
  - intros [p ->]; rewrite string_length_app; split; [lia|].
    replace (String.length p + String.length suf - String.length suf)%nat
      with (String.length p) by lia.
    apply drop_app.
Qed.

(** ** The safety gate *)

Lemma is_allowed_spec (host : string) :
  is_allowed host = true <-> allowlisted host.
Proof.
  unfold is_allowed, allowlisted; rewrite existsb_exists.
  split; intros [d [Hin Hd]]; exists d; split; trivial.
  - apply orb_true_iff in Hd as [Hd | Hd].
    + left; now apply String.eqb_eq.
    + right; now apply endswith_spec.
  - apply orb_true_iff; destruct Hd as [-> | Hd].
    + left; apply String.eqb_refl.
    + right; now apply endswith_spec.
Qed.

Lemma check_ips_total (W : World) (ip_list : list string) :
  check_ips W ip_list = Ok true <-> Forall (public W) ip_list.
Proof.
  induction ip_list as [|ip rest IH]; simpl.
  - split; [constructor | reflexivity].
  - unfold rbind. destruct (ip_address W ip) as [o|e] eqn:Eo.
    + destruct (is_private o) eqn:Ep; [|destruct (is_loopback o) eqn:El]; simpl.
      * split; [discriminate|].
        intros HF; inversion HF as [|? ? [o' [E1 [E2 _]]] _]; subst; congruence.
      * split; [discriminate|].
        intros HF; inversion HF as [|? ? [o' [E1 [_ E2]]] _]; subst; congruence.
      * rewrite IH; split.
        -- intros HF; constructor; [now exists o | exact HF].
        -- intros HF; now inversion HF.
    + split; [discriminate|].
      intros HF; inversion HF as [|? ? [o' [E1 _]] _]; congruence.
Qed.

(** C3: the safety gate never raises, and it answers true exactly when the
    scheme is https, the (lower-cased) hostname is an allowlisted domain or
    ends with a dot followed by one, and every address the hostname resolves
    to is neither private nor loopback; a failure of parsing, a missing
    hostname or a failure of resolution gives false. *)
Theorem is_safe_url_exact (W : World) (url : string) (h : history) :
  exists verdict h',
    is_safe_url W url h = (Ok verdict, h')
    /\ (verdict = true <-> safe W h url).
Proof.
  unfold is_safe_url, validate, bind, try_except, lift, ret, emit, resolve, safe.
  destruct (urlparse W url) as [parsed|e] eqn:Eparse.
  2:{ eexists _, _; split; [reflexivity|].
      split; [discriminate | intros (p & ? & ? & Hp & _); congruence]. }
  destruct (String.eqb (scheme parsed) "https") eqn:Es; simpl.
  2:{ eexists _, _; split; [reflexivity|].
      split; [discriminate|]. intros (p & ? & ? & Hp & Hs & _).
      apply String.eqb_neq in Es. congruence. }
  apply String.eqb_eq in Es.
  destruct (hostname parsed) as [host|] eqn:Eh.
  2:{ eexists _, _; split; [reflexivity|].
      split; [discriminate | intros (p & ? & ? & Hp & _ & Hh & _); congruence]. }
  destruct (is_allowed (str_lower W host)) eqn:Ea; simpl.
  2:{ eexists _, _; split; [reflexivity|].
      split; [discriminate|]. intros (p & x & ? & Hp & _ & Hh & Hal & _).
      assert (x = host) by congruence; subst x.
      apply is_allowed_spec in Hal; congruence. }
  apply is_allowed_spec in Ea.
  destruct (gethostbyname_ex W h (str_lower W host)) as [ip_list|e] eqn:Ed.
  2:{ eexists _, _; split; [reflexivity|].
      split; [discriminate|]. intros (p & x & ? & Hp & _ & Hh & _ & Hd & _).
      assert (x = host) by congruence; subst x; congruence. }
  destruct (check_ips W ip_list) as [b|e] eqn:Ec.
  - eexists _, _; split; [reflexivity|]. split.
    + intros ->. apply check_ips_total in Ec.
      now exists parsed, host, ip_list.
    + intros (p & x & l & Hp & _ & Hh & _ & Hd & HF).
      assert (x = host) by congruence; subst x.
      assert (l = ip_list) by congruence; subst l.
      apply check_ips_total in HF; congruence.
  - eexists _, _; split; [reflexivity|]. split; [discriminate|].
    intros (p & x & l & Hp & _ & Hh & _ & Hd & HF).
    assert (x = host) by congruence; subst x.
    assert (l = ip_list) by congruence; subst l.
    apply check_ips_total in HF; congruence.
Qed.

(** ** Computations that always return *)

Ltac run := unfold bind, ret, lift, emit, try_except in *.

Lemma try_except_default {A} (body : M A) (d : A) (h : history) :
  exists a h', try_except body (fun _ => ret d) h = (Ok a, h').
Proof.
  run. destruct (body h) as [[a|e] h']; eexists _, _; reflexivity.
Qed.

Lemma is_safe_url_returns (W : World) (url : string) (h : history) :
  exists verdict h', is_safe_url W url h = (Ok verdict, h').
Proof.
  unfold is_safe_url.
  destruct (try_except_default (validate W url) false h) as (v & h' & E).
  run. rewrite E. eexists _, _; reflexivity.
Qed.

Lemma scrape_hn_returns (W : World) (limit : Z) (h : history) :
  exists l h', scrape_hn_opportunities W limit h = (Ok l, h').
Proof.
  unfold scrape_hn_opportunities. unfold bind at 1.
  destruct (is_safe_url_returns W hn_listing_url h) as (v & h1 & ->).
  destruct v; simpl.
  - apply try_except_default.
  - eexists _, _; reflexivity.
Qed.

Lemma find_app_returns (W : World) (name pref : json) (h : history) :
  exists found h', find_app W name pref h = (Ok found, h').
Proof.
  unfold find_app, try_ios, try_android.
  destruct (py_eq_str pref "ios"); apply try_except_default.
Qed.

(** ** The review harvester *)

Lemma try_ios_platform (W : World) (name : json) (h h' : history)
      (app : AppResolution) :
  try_ios W name h = (Ok (Some app), h') -> platform app = "ios".
Proof.
  unfold try_ios, try_except, requests_get, fetch. run.
  destruct (http W h itunes_search_url _) as [resp|e]; [|discriminate].
  destruct (body resp) as [data|e]; [|discriminate].
  destruct (py_item data "resultCount") as [count|e]; [|discriminate].
  destruct (py_gt0 count) as [[|]|e]; try discriminate.
  destruct (py_item data "results") as [results|e]; [|discriminate].
  destruct (py_first results) as [first|e]; [|discriminate].
  destruct (py_item first "trackId") as [track_id|e]; [|discriminate].
  destruct (py_item first "trackName") as [track_name|e]; [|discriminate].
  destruct (py_item first "trackViewUrl") as [track_url|e]; [|discriminate].
  intros E; injection E as <- _. reflexivity.
Qed.

Lemma try_android_platform (W : World) (name : json) (h h' : history)
      (app : AppResolution) :
  try_android W name h = (Ok (Some app), h') -> platform app = "android".
Proof.
  unfold try_android, try_except. unfold bind at 1.
  destruct (search_google_play_manual W name h) as [[found|e] h0];
    [|discriminate].
  destruct found as [gid|]; [|discriminate].
  destruct (negb (String.eqb gid "")); [|discriminate].
  unfold play_app_call. run.
  destruct (play_app W _ gid) as [app_details|e].
  - destruct (py_get app_details "title" name);
      intros H; injection H as <- _; reflexivity.
  - intros H; injection H as <- _; reflexivity.
Qed.

(** a loop that appends leaves the records of the items before the one
    on which its body raises *)
Lemma append_each_records step items (acc : list OpportunityRecord) :
  fst (append_each step items acc) = (acc ++ records_before step items)%list
  /\ match snd (append_each step items acc) with
     | Ok _ => raises_on_none step items = true
     | Raise _ => raises_on_none step items = false
     end.
Proof.
  revert acc; induction items as [|x rest IH]; intros acc; simpl.
  - now rewrite app_nil_r.
  - destruct (step x) as [[r|]|e]; simpl.
    + destruct (IH (acc ++ [r])%list) as [-> H].
      now rewrite <- app_assoc.
    + apply IH.
    + now rewrite app_nil_r.
Qed.

(** the fetch stage makes one call and runs the loop of the store on the
    reviews that call gives *)
Lemma reviews_try_is_store (W : World) (info : AppResolution) (h : history) :
  platform info = "android" \/ platform info = "ios" ->
  reviews_try W info h
  = (match store_reviews W info h with
     | Ok items => Ok (append_each (review_step W info) items [])
     | Raise e => Raise e
     end,
     review_request W info :: h).
Proof.
  intros Hp. unfold reviews_try, store_reviews, review_step, review_request.
  destruct (String.eqb (platform info) "android") eqn:Ea.
  - unfold play_reviews_call. run.
    destruct (play_reviews W h (app_id info)) as [result|e]; [|reflexivity].
    simpl. destruct (py_iter result); reflexivity.
  - assert (Ei : String.eqb (platform info) "ios" = true).
    { destruct Hp as [Hp | Hp]; rewrite Hp in *; [discriminate | reflexivity]. }
    rewrite Ei. unfold requests_get, fetch. run.
    destruct (http W h (feed_url W info) []) as [resp|e]; [|reflexivity].
    simpl. destruct (body resp) as [data|e]; [|reflexivity].
    simpl. destruct (py_get data "feed" (JObj [])) as [feed|e]; [|reflexivity].
    simpl. destruct (py_get feed "entry" (JList [])) as [entries|e];
      [|reflexivity].
    simpl. destruct (py_iter entries); reflexivity.
Qed.

(** C10: the review harvest never raises; it returns None exactly when
    the resolution returns None; when the resolution succeeds it makes
    the one call for the reviews of the resolved app and returns the
    records of the reviews that call gave, up to the first review on
    which the loop raises, and the empty list when the call or the
    reading of its answer raises: the records appended before an
    exception are returned, and a failed fetch gives what a found app
    without qualifying reviews gives. *)
Theorem scrape_reviews_total (W : World) (name pref : json) (h : history) :
  exists found h1,
    find_app W name pref h = (Ok found, h1)
    /\ match found with
       | None => scrape_reviews W name pref h = (Ok None, h1)
       | Some info =>
           scrape_reviews W name pref h
           = (Ok (Some (match store_reviews W info h1 with
                        | Ok items =>
                            records_before (review_step W info) items
                        | Raise _ => []
                        end)),
              review_request W info :: h1)
       end.
Proof.
  destruct (find_app_returns W name pref h) as (found & h1 & E).
  exists found, h1; split; [exact E|].
  unfold scrape_reviews, bind; rewrite E.
  destruct found as [info|]; [|reflexivity].
  assert (Hp : platform info = "android" \/ platform info = "ios").
  { unfold find_app in E. destruct (py_eq_str pref "ios").
    - right. exact (try_ios_platform _ _ _ E).
    - left. exact (try_android_platform _ _ _ E). }
  unfold fetch_reviews. rewrite (reviews_try_is_store W info h1 Hp).
  destruct (store_reviews W info h1) as [items|e]; [|reflexivity].
  unfold accumulated.
  destruct (append_each_records (review_step W info) items []) as [Hl _].
  destruct (append_each (review_step W info) items []) as [l r].
  simpl in Hl. subst l. reflexivity.
Qed.

(** a feed whose second entry makes the loop raise: the record of the
    first entry is returned, that of the third is not *)
Example reviews_before_an_exception_are_returned :
  scrape_reviews half_read_store (JStr "ghost") (JStr "ios") []
  = (Ok (Some [ {| rec_id := JStr "r1";
                   rec_text := "[iOS Review 1/5] Crashes - on every start";
                   rec_url := JStr "https://apps.apple.com/app/id42";
                   rec_source := "App Store (Ghost)" |} ]),
     [Get "https://itunes.apple.com/us/rss/customerreviews/id=42/sortBy=mostRecent/json" [];
      ghost_search]).
Proof. vm_compute. reflexivity. Qed.

(** ** The route *)

Lemma truthy_obj (items : list (string * json)) (k : string) (v : json) :
  lookup k items = Some v -> truthy (JObj items) = true.
Proof. destruct items; [discriminate | reflexivity]. Qed.

(** C9: a source selector that is none of hn, reddit, reviews, all runs no
    harvester and is answered with success, raw_count 0 and no ideas. *)
Theorem unknown_source_is_empty_success
    (W : World) (items : list (string * json)) (source : json) (h : history) :
  lookup "source" items = Some source ->
  in_strs source ["hn"; "reddit"; "reviews"; "all"] = false ->
  endpoint W (JObj items) h = ((200, Ideas 0 []), h).
Proof.
  intros Hsrc Hnot.
  unfold in_strs in Hnot; simpl in Hnot.
  repeat (apply orb_false_iff in Hnot as [? Hnot]).
  unfold endpoint, generate.
  rewrite (truthy_obj _ _ Hsrc); simpl.
  rewrite Hsrc.
  unfold reddit_part, reviews_part, analyze, generate_business_ideas, in_strs.
  run; simpl.
  repeat match goal with E : py_eq_str source _ = false |- _ =>
    rewrite E; clear E end.
  reflexivity.
Qed.

Lemma unknown_source_is_empty_success_witness :
  endpoint (Demo.world Demo.offline Demo.mute) (JObj unknown_request) []
  = ((200, Ideas 0 []), []).
Proof.
  apply (@unknown_source_is_empty_success
           (Demo.world Demo.offline Demo.mute) unknown_request
           (JStr "twitter") []); reflexivity.
Defined.

(** C7: the feed source selected explicitly with an empty community list
    is rejected with a 400 and nothing is harvested; the selector all
    without a community list harvests the fixed, non-empty default
    communities and goes on. *)
Theorem subreddits_required_or_defaulted (W : World) :
  (forall items h,
      lookup "source" items = Some (JStr "reddit") ->
      py_get (JObj items) "subreddits" (JList []) = Ok (JList []) ->
      endpoint W (JObj items) h
      = ((400, Error "Subreddits list cannot be empty for Reddit source"), h))
  /\ (forall items h,
         lookup "source" items = Some (JStr "all") ->
         lookup "subreddits" items = None ->
         generate W (JObj items) h
         = (hn <- scrape_hn_opportunities W 20 ;;
            l <- scrape_reddit_rss W (JList [JStr "SaaS"; JStr "startups"]) ;;
            analyze W (hn ++ l)) h).
Proof.
  split; intros items h Hsrc Hsubs.
  - unfold endpoint, generate.
    rewrite (truthy_obj _ _ Hsrc); simpl.
    rewrite Hsrc. simpl in Hsubs; injection Hsubs as Hsubs.
    unfold reddit_part. run; simpl. rewrite Hsubs. reflexivity.
  - unfold generate.
    rewrite (truthy_obj _ _ Hsrc); simpl.
    rewrite Hsrc.
    unfold reddit_part, reviews_part. run; simpl.
    destruct (scrape_hn_opportunities W 20 h) as [[hn|e] h1]; [|reflexivity].
    rewrite Hsubs; simpl. reflexivity.
Qed.

Lemma subreddits_required_or_defaulted_witness :
  endpoint (Demo.world Demo.offline Demo.mute) (JObj reddit_no_subs) []
  = ((400, Error "Subreddits list cannot be empty for Reddit source"), [])
  /\ generate (Demo.world Demo.offline Demo.mute) (JObj all_no_subs) []
     = (hn <- scrape_hn_opportunities (Demo.world Demo.offline Demo.mute) 20 ;;
        l <- scrape_reddit_rss (Demo.world Demo.offline Demo.mute)
               (JList [JStr "SaaS"; JStr "startups"]) ;;
        analyze (Demo.world Demo.offline Demo.mute) (hn ++ l)) [].
Proof.
  split.
  - apply (proj1 (subreddits_required_or_defaulted
                    (Demo.world Demo.offline Demo.mute))); reflexivity.
  - apply (proj2 (subreddits_required_or_defaulted
                    (Demo.world Demo.offline Demo.mute))); reflexivity.
Defined.

(** C4: when the name resolves to no app, the review harvest returns None
    (not an empty list) and the route answers 404; when the resolution
    succeeds and no review qualifies, the route answers success with
    raw_count 0. *)
Theorem review_not_found_is_404
    (W : World) (items : list (string * json)) (nm : string) (h : history) :
  lookup "source" items = Some (JStr "reviews") ->
  lookup "app_name" items = Some (JStr nm) ->
  truthy (JStr nm) = true ->
  String.eqb (str_strip W nm) "" = false ->
  let pref := match lookup "platform" items with
              | Some p => p
              | None => JStr "android"
              end in
  (forall h1,
      find_app W (JStr nm) pref h = (Ok None, h1) ->
      scrape_reviews W (JStr nm) pref h = (Ok None, h1)
      /\ endpoint W (JObj items) h
         = ((404, Error ("App '" ++ nm ++ "' not found in " ++ fmt W pref
                         ++ " store(s).")), h1))
  /\ (forall h1,
         scrape_reviews W (JStr nm) pref h = (Ok (Some []), h1) ->
         endpoint W (JObj items) h = ((200, Ideas 0 []), h1)).
Proof.
  intros Hsrc Hname Htruthy Hstrip pref.
  assert (Hrun : forall r h1,
             scrape_reviews W (JStr nm) pref h = (Ok r, h1) ->
             endpoint W (JObj items) h
             = match r with
               | None =>
                   ((404, Error ("App '" ++ nm ++ "' not found in "
                                 ++ fmt W pref ++ " store(s).")), h1)
               | Some l =>
                   match generate_business_ideas W l h1 with
                   | (Ok ideas, h2) => ((200, Ideas (List.length l) ideas), h2)
                   | (Raise _, h2) =>
                       ((500, Error "Something went wrong on the server. Please try again later."), h2)
                   end
               end).
  { intros r h1 E. unfold endpoint, generate.
    rewrite (truthy_obj _ _ Hsrc); simpl.
    rewrite Hsrc.
    unfold reddit_part, reviews_part, analyze. run; simpl.
    rewrite Hname, Htruthy; simpl. rewrite Hstrip.
    fold pref. rewrite E. destruct r as [l|]; [|reflexivity].
    simpl. destruct (generate_business_ideas W l h1) as [[ideas|e] h2];
      reflexivity. }
  split; intros h1 E.
  - assert (Es : scrape_reviews W (JStr nm) pref h = (Ok None, h1)).
    { unfold scrape_reviews, bind; now rewrite E. }
    split; [exact Es | exact (Hrun None h1 Es)].
  - exact (Hrun (Some []) h1 E).
Qed.

Lemma review_not_found_is_404_witness :
  (scrape_reviews empty_store (JStr "ghost") (JStr "ios") []
   = (Ok None, [ghost_search])
   /\ endpoint empty_store (JObj ghost_request) []
      = ((404, Error "App 'ghost' not found in ios store(s)."), [ghost_search]))
  /\ endpoint silent_store (JObj ghost_request) []
     = ((200, Ideas 0 []),
        [Get "https://itunes.apple.com/us/rss/customerreviews/id=42/sortBy=mostRecent/json" [];
         ghost_search]).
Proof.
  split.
  - apply (proj1 (@review_not_found_is_404 empty_store ghost_request "ghost" []
                    eq_refl eq_refl eq_refl eq_refl)).
    reflexivity.
  - apply (proj2 (@review_not_found_is_404 silent_store ghost_request "ghost" []
                    eq_refl eq_refl eq_refl eq_refl)).
    reflexivity.
Defined.

(** ** The synthesis adapter *)

(** C2: of 31 collected records the 30 numbered 0 to 29 are submitted; the
    idea citing number 31 is dropped and the others stay, but the idea
    citing number 30, which was never submitted, is kept and attributed
    to the 31st record: the range test uses the length of the whole list. *)
Theorem idea_beyond_submitted_prefix_is_kept :
  input_data oracle (complaints 31) = input_data oracle (complaints 30)
  /\ List.length (input_data oracle (complaints 31)) = 30%nat
  /\ fst (generate_business_ideas oracle (complaints 31) [])
     = Ok [ {| name := JStr "A"; pitch := JStr "pitch";
               source_text := "complaint 30";
               source_url := JStr "https://reddit.com/r/x";
               source_origin := "Reddit r/x" |};
            {| name := JStr "C"; pitch := JStr "pitch";
               source_text := "complaint 2";
               source_url := JStr "https://reddit.com/r/x";
               source_origin := "Reddit r/x" |} ].
Proof. repeat split; vm_compute; reflexivity. Qed.

(** out of the range of the whole list, an idea is dropped and the loop
    goes on *)
Lemma enrich_out_of_range
    (W : World) (collected_data : list OpportunityRecord)
    (fields : list (string * json)) (idx : Z) :
  lookup "source_id" fields = Some (JInt idx) ->
  idx < 0 \/ Z.of_nat (List.length collected_data) <= idx ->
  enrich W collected_data (JObj fields) = Ok None.
Proof.
  intros Hid Hout. unfold enrich; simpl. rewrite Hid; simpl.
  destruct (0 <=? idx) eqn:E0; simpl; [|reflexivity].
  destruct (idx <? Z.of_nat (List.length collected_data)) eqn:E1;
    [|reflexivity].
  apply Z.leb_le in E0; apply Z.ltb_lt in E1; lia.
Qed.

(** inside the range of the whole list, submitted or not, a well-formed
    idea is kept *)
Lemma enrich_in_range
    (W : World) (collected_data : list OpportunityRecord)
    (fields : list (string * json)) (idx : Z) (n p : json)
    (original : OpportunityRecord) :
  lookup "source_id" fields = Some (JInt idx) ->
  lookup "name" fields = Some n ->
  lookup "pitch" fields = Some p ->
  0 <= idx ->
  nth_error collected_data (Z.to_nat idx) = Some original ->
  enrich W collected_data (JObj fields)
  = Ok (Some {| name := n; pitch := p;
                source_text := rec_text original;
                source_url := rec_url original;
                source_origin := rec_source original |}).
Proof.
  intros Hid Hn Hp H0 Hnth. unfold enrich; simpl. rewrite Hid; simpl.
  assert (Hlt : (Z.to_nat idx < List.length collected_data)%nat).
  { apply nth_error_Some; congruence. }
  destruct (0 <=? idx) eqn:E0; [|apply Z.leb_gt in E0; lia].
  destruct (idx <? Z.of_nat (List.length collected_data)) eqn:E1;
    [|apply Z.ltb_ge in E1; lia].
  simpl. rewrite Hnth, Hn, Hp. reflexivity.
Qed.

(** ** Network calls and the gate *)

Lemma grows_ret {A} (a : A) : grows (ret a).
Proof. intros h; now exists []. Qed.

Lemma grows_lift {A} (r : result A) : grows (lift r).
Proof. intros h; now exists []. Qed.

Lemma grows_bind {A B} (m : M A) (k : A -> M B) :
  grows m -> (forall a, grows (k a)) -> grows (bind m k).
Proof.
  intros Hm Hk h. unfold bind.
  destruct (Hm h) as [evs E]. destruct (m h) as [[a|e] h1]; simpl in E; subst.
  - destruct (Hk a (evs ++ h)%list) as [evs' E']. rewrite E'.
    exists (evs' ++ evs)%list. now rewrite app_assoc.
  - now exists evs.
Qed.

Lemma grows_try {A} (body : M A) (handler : exn -> M A) :
  grows body -> (forall e, grows (handler e)) -> grows (try_except body handler).
Proof.
  intros Hm Hk h. unfold try_except.
  destruct (Hm h) as [evs E]. destruct (body h) as [[a|e] h1]; simpl in E; subst.
  - now exists evs.
  - destruct (Hk e (evs ++ h)%list) as [evs' E']. rewrite E'.
    exists (evs' ++ evs)%list. now rewrite app_assoc.
Qed.

Lemma grows_fetch (W : World) url params : grows (fetch W url params).
Proof. intros h; now exists [Get url params]. Qed.

Lemma grows_requests_get (W : World) url params :
  grows (requests_get W url params).
Proof.
  apply grows_bind; [apply grows_fetch | intros; apply grows_lift].
Qed.

Lemma grows_if {A} (b : bool) (m1 m2 : M A) :
  grows m1 -> grows m2 -> grows (if b then m1 else m2).
Proof. now destruct b. Qed.

Lemma added_app (evs h : history) : added h (evs ++ h)%list = evs.
Proof.
  unfold added. rewrite List.length_app.
  replace (List.length evs + List.length h - List.length h)%nat
    with (List.length evs + 0)%nat by lia.
  now rewrite firstn_app_2, app_nil_r.
Qed.

Lemma opens_bind {A B} (e : event) (m : M A) (k : A -> M B) :
  opens e m -> (forall a, grows (k a)) -> opens e (bind m k).
Proof.
  intros Hm Hk h. unfold bind.
  destruct (Hm h) as [evs E]. destruct (m h) as [[a|x] h1]; simpl in E; subst.
  - destruct (Hk a (evs ++ e :: h)%list) as [evs' E']. rewrite E'.
    exists (evs' ++ evs)%list. now rewrite app_assoc.
  - now exists evs.
Qed.

Lemma opens_try {A} (e : event) (body : M A) (handler : exn -> M A) :
  opens e body -> (forall x, grows (handler x)) ->
  opens e (try_except body handler).
Proof.
  intros Hm Hk h. unfold try_except.
  destruct (Hm h) as [evs E]. destruct (body h) as [[a|x] h1]; simpl in E; subst.
  - now exists evs.
  - destruct (Hk x (evs ++ e :: h)%list) as [evs' E']. rewrite E'.
    exists (evs' ++ evs)%list. now rewrite app_assoc.
Qed.

Lemma opens_requests_get (W : World) url params :
  opens (Get url params) (requests_get W url params).
Proof. intros h. exists []. unfold requests_get, fetch. run. now destruct (http W h url params). Qed.

Lemma grows_play_app_call (W : World) gid : grows (play_app_call W gid).
Proof. intros h; now exists [PlayApp gid]. Qed.

Lemma grows_play_reviews_call (W : World) i : grows (play_reviews_call W i).
Proof. intros h; now exists [PlayReviews i]. Qed.

Lemma grows_fetch_reviews (W : World) info : grows (fetch_reviews W info).
Proof.
  assert (G : grows (reviews_try W info)).
  { unfold reviews_try.
    repeat first
      [ apply grows_ret
      | apply grows_lift
      | apply grows_play_reviews_call
      | apply grows_requests_get
      | apply grows_if
      | apply grows_bind; [|intros] ]. }
  intros h. destruct (G h) as [evs E]. exists evs.
  unfold fetch_reviews. now destruct (reviews_try W info h).
Qed.

(** a history that begins with a GET is not gated *)
Lemma ungated_first_get (evs : history) url params :
  gated (evs ++ [Get url params])%list = false.
Proof.
  induction evs as [|e rest IH]; [reflexivity|].
  destruct e; simpl; rewrite IH; auto using andb_false_r.
Qed.

(** the review harvest opens with the store search *)
Lemma scrape_reviews_opens (W : World) (name pref : json) :
  opens (store_search W name pref) (scrape_reviews W name pref).
Proof.
  assert (Hfetch : forall found : option AppResolution,
             grows (match found with
                    | None => ret None
                    | Some info =>
                        opportunities <- fetch_reviews W info ;;
                        ret (Some opportunities)
                    end)).
  { intros [info|]; [|apply grows_ret].
    apply grows_bind; [apply grows_fetch_reviews | intros; apply grows_ret]. }
  unfold scrape_reviews, find_app, store_search.
  destruct (py_eq_str pref "ios"); (apply opens_bind; [|exact Hfetch]).
  - unfold try_ios. apply opens_try; [|intros; apply grows_ret].
    apply opens_bind; [apply opens_requests_get|]. intros resp.
    repeat first
      [ apply grows_ret
      | apply grows_lift
      | apply grows_if
      | apply grows_bind; [|intros] ].
  - unfold try_android. apply opens_try; [|intros; apply grows_ret].
    apply opens_bind.
    + unfold search_google_play_manual.
      apply opens_try; [|intros; apply grows_ret].
      apply opens_bind; [apply opens_requests_get|]. intros resp.
      apply grows_if; apply grows_ret.
    + intros [gid|]; [|apply grows_ret].
      apply grows_if; [|apply grows_ret].
      apply grows_bind; [|intros; apply grows_ret].
      apply grows_try; [|intros; apply grows_ret].
      apply grows_bind; [apply grows_play_app_call | intros; apply grows_lift].
Qed.

(** C1, on the review harvester: for every app name, platform and answer
    of the world, the oldest event the harvest adds to the history is the
    GET of the store search, which no gate check precedes, so what the
    harvest adds is never gated. *)
Theorem review_harvest_is_not_gated
    (W : World) (name pref : json) (h : history) :
  (exists evs,
      added h (snd (scrape_reviews W name pref h))
      = (evs ++ [store_search W name pref])%list)
  /\ gated (added h (snd (scrape_reviews W name pref h))) = false.
Proof.
  destruct (scrape_reviews_opens W name pref h) as [evs E]. rewrite E.
  change (evs ++ store_search W name pref :: h)%list
    with (evs ++ [store_search W name pref] ++ h)%list.
  rewrite app_assoc, added_app. split; [now exists evs|].
  unfold store_search. destruct (py_eq_str pref "ios");
    apply ungated_first_get.
Qed.

(** ** The feed harvester: one community *)

Lemma append_each_acc step items (acc : list OpportunityRecord) :
  append_each step items acc
  = ((acc ++ fst (append_each step items []))%list,
     snd (append_each step items [])).
Proof.
  revert acc; induction items as [|x rest IH]; intros acc; simpl.
  - now rewrite app_nil_r.
  - destruct (step x) as [o|e]; simpl.
    + rewrite (IH (push o acc)), (IH (push o [])).
      destruct o; simpl; [|reflexivity].
      now rewrite <- app_assoc.
    + now rewrite app_nil_r.
Qed.

Lemma reddit_attempt_acc (W : World) clean_sub outcome acc :
  reddit_attempt W clean_sub outcome acc
  = ((acc ++ fst (reddit_attempt W clean_sub outcome []))%list,
     succeeded W clean_sub outcome).
Proof.
  unfold succeeded, reddit_attempt.
  destruct outcome as [resp|e]; simpl; [|now rewrite app_nil_r].
  destruct (status_code resp =? 200); simpl; [|now rewrite app_nil_r].
  destruct (reddit_children resp) as [posts|e]; simpl;
    [|now rewrite app_nil_r].
  unfold reddit_posts. rewrite (append_each_acc _ posts acc).
  destruct (append_each (reddit_post W clean_sub) posts []) as [l [u|e]];
    reflexivity.
Qed.

(** a successful attempt had an OK answer whose body parsed, and what it
    appended is what the body holds *)
Lemma succeeded_parsed (W : World) clean_sub outcome :
  succeeded W clean_sub outcome = true ->
  exists resp posts items,
    outcome = Ok resp
    /\ status_code resp = 200
    /\ reddit_children resp = Ok posts
    /\ append_each (reddit_post W clean_sub) posts [] = (items, Ok tt)
    /\ fst (reddit_attempt W clean_sub outcome []) = items.
Proof.
  unfold succeeded, reddit_attempt.
  destruct outcome as [resp|e]; simpl; [|discriminate].
  destruct (status_code resp =? 200) eqn:Es; simpl; [|discriminate].
  destruct (reddit_children resp) as [posts|e] eqn:Ec; simpl; [|discriminate].
  unfold reddit_posts.
  destruct (append_each (reddit_post W clean_sub) posts [])
    as [l [[]|e]] eqn:Ea; simpl; [|discriminate].
  intros _. exists resp, posts, l. apply Z.eqb_eq in Es.
  repeat split; auto.
Qed.

Lemma retry_loop_step (W : World) url clean_sub attempt rest acc h :
  retry_loop W url clean_sub (attempt :: rest) acc h
  = let l := (acc ++ fst (reddit_attempt W clean_sub
                            (http W (Choice :: h) url []) []))%list in
    if succeeded W clean_sub (http W (Choice :: h) url []) then
      (Ok (l, true), Get url [] :: Choice :: h)
    else if (attempt <? attempts)%nat then
      retry_loop W url clean_sub rest l
                 (Sleep :: Get url [] :: Choice :: h)
    else
      retry_loop W url clean_sub rest l (Get url [] :: Choice :: h).
Proof.
  simpl. unfold bind at 1, emit at 1. unfold bind at 1, fetch at 1.
  rewrite reddit_attempt_acc.
  destruct (succeeded W clean_sub (http W (Choice :: h) url [])); simpl.
  - reflexivity.
  - unfold bind at 1. destruct (attempt <? attempts)%nat; reflexivity.
Qed.






(** two refused attempts, then an answer: three requests, a sleep after
    each of the first two, the items of the third *)
Example third_attempt_succeeds :
  scrape_reddit_rss flaky (JList [JStr "b"]) []
  = (Ok [wish],
     [Get (reddit_url "b") []; Choice; Sleep;
      Get (reddit_url "b") []; Choice; Sleep;
      Get (reddit_url "b") []; Choice;
      Gate (reddit_url "b") true; Dns "www.reddit.com"]).
Proof. vm_compute. reflexivity. Qed.

(** ** The feed harvester: isolation of communities *)

Lemma not_ok_not_succeeded (W : World) clean_sub outcome :
  ok_status outcome = false ->
  reddit_attempt W clean_sub outcome [] = ([], false).
Proof.
  unfold reddit_attempt, ok_status. destruct outcome as [resp|e]; [|reflexivity].
  now intros ->.
Qed.

Lemma retry_loop_all_fail (W : World) clean_sub acc h :
  let url := reddit_url clean_sub in
  (forall k, (k < 3)%nat -> ok_status (answer W url h k) = false) ->
  retry_loop W url clean_sub (seq 1 attempts) acc h
  = (Ok (acc, false), Get url [] :: Choice :: before_attempt url h 2).
Proof.
  intros url Hfail.
  pose proof (not_ok_not_succeeded W clean_sub _ (Hfail 0%nat ltac:(lia))) as E0.
  pose proof (not_ok_not_succeeded W clean_sub _ (Hfail 1%nat ltac:(lia))) as E1.
  pose proof (not_ok_not_succeeded W clean_sub _ (Hfail 2%nat ltac:(lia))) as E2.
  unfold answer in E0, E1, E2; simpl before_attempt in E0, E1, E2.
  unfold attempts; simpl seq.
  rewrite retry_loop_step. unfold succeeded. rewrite E0. cbv zeta; simpl snd.
  change (1 <? attempts)%nat with true. cbv iota.
  rewrite retry_loop_step. unfold succeeded. rewrite E1. cbv zeta; simpl snd.
  change (2 <? attempts)%nat with true. cbv iota.
  rewrite retry_loop_step. unfold succeeded. rewrite E2. cbv zeta; simpl snd.
  change (3 <? attempts)%nat with false. cbv iota.
  simpl. now rewrite !app_nil_r.
Qed.

Lemma retry_loop_returns (W : World) url clean_sub range acc h :
  exists l ok h', retry_loop W url clean_sub range acc h = (Ok (l, ok), h').
Proof.
  revert acc h; induction range as [|attempt rest IH]; intros acc h.
  - eexists _, _, _; reflexivity.
  - rewrite retry_loop_step. cbv zeta.
    destruct (succeeded W clean_sub (http W (Choice :: h) url [])).
    + eexists _, _, _; reflexivity.
    + destruct (attempt <? attempts)%nat; apply IH.
Qed.

Lemma retry_loop_acc (W : World) url clean_sub range acc h :
  retry_loop W url clean_sub range acc h
  = match retry_loop W url clean_sub range [] h with
    | (Ok (l, ok), h') => (Ok ((acc ++ l)%list, ok), h')
    | (Raise e, h') => (Raise e, h')
    end.
Proof.
  revert acc h; induction range as [|attempt rest IH]; intros acc h.
  - simpl. unfold ret. now rewrite app_nil_r.
  - rewrite !retry_loop_step. cbv zeta.
    destruct (succeeded W clean_sub (http W (Choice :: h) url [])).
    + reflexivity.
    + set (l0 := fst (reddit_attempt W clean_sub (http W (Choice :: h) url []) [])).
      simpl app at 2.
      destruct (attempt <? attempts)%nat.
      * rewrite (IH (acc ++ l0)%list), (IH l0).
        destruct (retry_loop W url clean_sub rest [] _) as [[[l ok]|e] h'];
          [now rewrite app_assoc | reflexivity].
      * rewrite (IH (acc ++ l0)%list), (IH l0).
        destruct (retry_loop W url clean_sub rest [] _) as [[[l ok]|e] h'];
          [now rewrite app_assoc | reflexivity].
Qed.

(** one community, as the loop over communities runs it *)
Lemma reddit_subs_cons (W : World) (sub : string) rest acc h :
  reddit_subs W (JStr sub :: rest) acc h
  = let clean_sub := str_strip W sub in
    let url := reddit_url clean_sub in
    match is_safe_url W url h with
    | (Ok true, h1) =>
        match retry_loop W url clean_sub (seq 1 attempts) acc h1 with
        | (Ok r, h2) => reddit_subs W rest (fst r) h2
        | (Raise e, h2) => (Raise e, h2)
        end
    | (Ok false, h1) => reddit_subs W rest acc h1
    | (Raise e, h1) => (Raise e, h1)
    end.
Proof.
  simpl. run. simpl.
  destruct (is_safe_url W (reddit_url (str_strip W sub)) h) as [[[|]|e] h1];
    reflexivity.
Qed.

Lemma reddit_subs_returns (W : World) (names : list string) acc h :
  exists l h', reddit_subs W (map JStr names) acc h = (Ok l, h').
Proof.
  revert acc h; induction names as [|sub rest IH]; intros acc h.
  - eexists _, _; reflexivity.
  - simpl map. rewrite reddit_subs_cons. cbv zeta.
    destruct (is_safe_url_returns W (reddit_url (str_strip W sub)) h)
      as (v & h1 & ->).
    destruct v; [|apply IH].
    destruct (retry_loop_returns W (reddit_url (str_strip W sub))
                (str_strip W sub) (seq 1 attempts) acc h1)
      as (l & ok & h2 & ->).
    apply IH.
Qed.

Lemma reddit_subs_acc (W : World) (names : list string) acc h :
  reddit_subs W (map JStr names) acc h
  = match reddit_subs W (map JStr names) [] h with
    | (Ok l, h') => (Ok (acc ++ l)%list, h')
    | (Raise e, h') => (Raise e, h')
    end.
Proof.
  revert acc h; induction names as [|sub rest IH]; intros acc h.
  - simpl. unfold ret. now rewrite app_nil_r.
  - simpl map. rewrite !reddit_subs_cons. cbv zeta.
    destruct (is_safe_url W (reddit_url (str_strip W sub)) h)
      as [[[|]|e] h1]; [|apply IH|reflexivity].
    rewrite (retry_loop_acc W _ _ _ acc).
    destruct (retry_loop W (reddit_url (str_strip W sub)) (str_strip W sub)
                (seq 1 attempts) [] h1) as [[[l ok]|e] h2]; [|reflexivity].
    simpl fst. rewrite (IH (acc ++ l)%list), (IH l).
    destruct (reddit_subs W (map JStr rest) [] h2) as [[l2|e] h3];
      [now rewrite app_assoc | reflexivity].
Qed.

Lemma reddit_subs_app (W : World) (xs ys : list string) acc h :
  reddit_subs W (map JStr (xs ++ ys)) acc h
  = match reddit_subs W (map JStr xs) acc h with
    | (Ok l, h1) => reddit_subs W (map JStr ys) l h1
    | (Raise e, h1) => (Raise e, h1)
    end.
Proof.
  revert acc h; induction xs as [|sub rest IH]; intros acc h.
  - reflexivity.
  - simpl app; simpl map. rewrite !reddit_subs_cons. cbv zeta.
    destruct (is_safe_url W (reddit_url (str_strip W sub)) h)
      as [[[|]|e] h1]; [|apply IH|reflexivity].
    destruct (retry_loop W (reddit_url (str_strip W sub)) (str_strip W sub)
                (seq 1 attempts) acc h1) as [[r|e] h2]; [apply IH|reflexivity].
Qed.

Lemma scrape_reddit_rss_list (W : World) (subs : list json) h :
  scrape_reddit_rss W (JList subs) h = reddit_subs W subs [] h.
Proof. reflexivity. Qed.

(** C5: the feed harvest never raises, and what it returns for a list of
    communities is, in order, what each part of the list yields when it is
    harvested on its own from the moment its turn comes; a community whose
    endpoint fails on all three attempts contributes nothing and takes
    nothing away from the communities before and after it. *)
Theorem feed_communities_are_isolated
    (W : World) (before : list string) (sub : string) (after : list string)
    (h : history) :
  exists l1 h1 l h2 l2 h3,
    scrape_reddit_rss W (JList (map JStr before)) h = (Ok l1, h1)
    /\ scrape_reddit_rss W (JList [JStr sub]) h1 = (Ok l, h2)
    /\ scrape_reddit_rss W (JList (map JStr after)) h2 = (Ok l2, h3)
    /\ scrape_reddit_rss W (JList (map JStr (before ++ sub :: after))) h
       = (Ok (l1 ++ l ++ l2)%list, h3)
    /\ let url := reddit_url (str_strip W sub) in
       ((forall k, (k < 3)%nat ->
                   ok_status (answer W url (snd (is_safe_url W url h1)) k)
                   = false) ->
        l = []).
Proof.
  rewrite !scrape_reddit_rss_list.
  destruct (reddit_subs_returns W before [] h) as (l1 & h1 & E1).
  destruct (reddit_subs_returns W [sub] [] h1) as (l & h2 & E).
  destruct (reddit_subs_returns W after [] h2) as (l2 & h3 & E2).
  exists l1, h1, l, h2, l2, h3.
  split; [exact E1|]. split; [exact E|]. split; [exact E2|]. split.
  - rewrite reddit_subs_app, E1.
    rewrite reddit_subs_acc.
    change (sub :: after) with ([sub] ++ after)%list.
    rewrite reddit_subs_app, E.
    rewrite reddit_subs_acc, E2. reflexivity.
  - intros url Hfail. simpl map in E. rewrite reddit_subs_cons in E.
    cbv zeta in E. subst url.
    destruct (is_safe_url W (reddit_url (str_strip W sub)) h1)
      as [[[|]|e] hg]; simpl snd in Hfail.
    + rewrite (retry_loop_all_fail W (str_strip W sub) [] hg Hfail) in E.
      simpl in E. unfold ret in E. congruence.
    + simpl in E. unfold ret in E. congruence.
    + discriminate E.
Qed.

Lemma feed_communities_are_isolated_witness :
  fst (scrape_reddit_rss two_communities (JList [JStr "a"; JStr "b"]) [])
  = Ok [wish].
Proof.
  destruct (feed_communities_are_isolated two_communities [] "a" ["b"] [])
    as (l1 & h1 & l & h2 & l2 & h3 & E1 & E & E2 & Eall & Hfail).
  injection E1 as <- <-.
  assert (El : l = []).
  { apply Hfail. intros k Hk.
    destruct k as [|[|[|k]]]; [reflexivity | reflexivity | reflexivity | lia]. }
  subst l. vm_compute in E. injection E as <-.
  vm_compute in E2. injection E2 as <- <-.
  simpl map in Eall. simpl app in Eall. rewrite Eall. reflexivity.
Defined.

(** the failing community costs its three requests and nothing else *)
Example only_the_failing_community_is_lost :
  fst (scrape_reddit_rss two_communities (JList [JStr "a"; JStr "b"]) [])
  = Ok [wish]
  /\ requests (snd (scrape_reddit_rss two_communities
                      (JList [JStr "a"; JStr "b"]) []))
     = 4%nat.
Proof. split; vm_compute; reflexivity. Qed.

(** ** The concurrent harvester *)

(** *** Reassembly of the answers of concurrent requests *)

Lemma in_insert_by (rank : nat -> nat) (i j : nat) (l : list nat) :
  In i (insert_by rank j l) <-> i = j \/ In i l.
Proof.
  induction l as [|x rest IH]; simpl.
  - intuition.
  - destruct (rank j <=? rank x)%nat; simpl; [intuition|].
    rewrite IH; intuition.
Qed.

Lemma in_completion_order (rank : nat -> nat) (n i : nat) :
  In i (completion_order rank n) <-> (i < n)%nat.
Proof.
  unfold completion_order.
  assert (H : forall l, In i (fold_right (insert_by rank) [] l) <-> In i l).
  { induction l as [|x rest IH]; simpl; [intuition|].
    rewrite in_insert_by, IH. intuition. }
  rewrite H, in_seq. lia.
Qed.

Lemma length_store {A} (i : nat) (x : A) (slots : list (option A)) :
  List.length (store i x slots) = List.length slots.
Proof.
  revert i; induction slots as [|s rest IH]; intros [|i]; simpl; auto.
Qed.

Lemma nth_error_store {A} (i j : nat) (x : A) (slots : list (option A)) :
  (i < List.length slots)%nat ->
  nth_error (store i x slots) j
  = if (j =? i)%nat then Some (Some x) else nth_error slots j.
Proof.
  revert i j; induction slots as [|s rest IH]; intros i j Hi; simpl in Hi.
  - lia.
  - destruct i as [|i], j as [|j]; simpl; try reflexivity.
    apply IH; lia.
Qed.

Lemma length_complete {A} (outcomes : list A) slots i :
  List.length (complete outcomes slots i) = List.length slots.
Proof.
  unfold complete. destruct (nth_error outcomes i); [apply length_store|reflexivity].
Qed.

Lemma nth_error_complete {A} (outcomes : list A) slots i j :
  List.length slots = List.length outcomes ->
  (j = i -> (i < List.length outcomes)%nat) ->
  nth_error (complete outcomes slots i) j
  = if (j =? i)%nat then nth_error (map Some outcomes) j
    else nth_error slots j.
Proof.
  intros Hlen Hin. unfold complete.
  destruct (nth_error outcomes i) as [x|] eqn:Ex.
  - rewrite nth_error_store.
    + destruct (j =? i)%nat eqn:Ej; [|reflexivity].
      apply Nat.eqb_eq in Ej; subst j.
      now rewrite nth_error_map, Ex.
    + rewrite Hlen. apply nth_error_Some. congruence.
  - destruct (j =? i)%nat eqn:Ej; [|reflexivity].
    apply Nat.eqb_eq in Ej; subst j.
    apply nth_error_None in Ex. specialize (Hin eq_refl). lia.
Qed.

Lemma nth_error_completed {A} (outcomes : list A) order slots j :
  List.length slots = List.length outcomes ->
  (j < List.length outcomes)%nat ->
  nth_error (fold_left (complete outcomes) order slots) j
  = if existsb (Nat.eqb j) order then nth_error (map Some outcomes) j
    else nth_error slots j.
Proof.
  intros Hlen Hj. revert slots Hlen.
  induction order as [|i rest IH]; intros slots Hlen; simpl; [reflexivity|].
  rewrite IH by (now rewrite length_complete).
  destruct (existsb (Nat.eqb j) rest); [now rewrite orb_true_r|].
  rewrite orb_false_r. apply nth_error_complete; [exact Hlen | intros <-; exact Hj].
Qed.

Lemma length_completed {A} (outcomes : list A) order slots :
  List.length (fold_left (complete outcomes) order slots) = List.length slots.
Proof.
  revert slots; induction order as [|i rest IH]; intros slots; simpl;
    [reflexivity|].
  now rewrite IH, length_complete.
Qed.

Lemma filled_some {A} (l : list A) : filled (map Some l) = l.
Proof. induction l as [|x rest IH]; simpl; [reflexivity | now rewrite IH]. Qed.

(** whatever the order of completion, the awaited list is the list of
    answers in the order of the tasks *)
Lemma reassemble_any_order {A} (rank : nat -> nat) (outcomes : list A) :
  reassemble (completion_order rank (List.length outcomes)) outcomes
  = outcomes.
Proof.
  unfold reassemble.
  set (order := completion_order rank (List.length outcomes)).
  assert (E : fold_left (complete outcomes) order
                        (repeat None (List.length outcomes))
              = map Some outcomes).
  { apply nth_error_ext; intros j.
    destruct (Nat.lt_ge_cases j (List.length outcomes)) as [Hj | Hj].
    - rewrite nth_error_completed by (trivial; apply repeat_length).
      assert (Hin : existsb (Nat.eqb j) order = true).
      { apply existsb_exists. exists j. split; [|apply Nat.eqb_refl].
        now apply in_completion_order. }
      now rewrite Hin.
    - transitivity (@None (option A)).
      + apply nth_error_None. now rewrite length_completed, repeat_length.
      + symmetry; apply nth_error_None. now rewrite length_map. }
  rewrite E. apply filled_some.
Qed.

Lemma issue_returns (W : World) (tasks : list string) (h : history) :
  exists outcomes,
    issue W tasks h
    = (Ok outcomes, (rev (map (fun u => Get u []) tasks) ++ h)%list)
    /\ List.length outcomes = List.length tasks.
Proof.
  revert h; induction tasks as [|u rest IH]; intros h.
  - exists []; split; reflexivity.
  - simpl issue. unfold bind at 1, fetch at 1.
    destruct (IH (Get u [] :: h)) as (rs & E & Hlen).
    unfold bind at 1. rewrite E. unfold ret.
    eexists; split.
    + simpl map; simpl rev. rewrite <- app_assoc. reflexivity.
    + simpl; now rewrite Hlen.
Qed.

Lemma gather_is_issue (W : World) (tasks : list string) (h : history) :
  gather W tasks h = issue W tasks h.
Proof.
  unfold gather. destruct (issue W tasks h) as [[outcomes|e] h']; [|reflexivity].
  now rewrite reassemble_any_order.
Qed.

(** *** Scheduling *)

Lemma grows_validate (W : World) (url : string) : grows (validate W url).
Proof.
  assert (Gr : forall host, grows (resolve W host)).
  { intros host h. now exists [Dns host]. }
  unfold validate.
  apply grows_bind; [apply grows_lift | intros parsed].
  apply grows_if; [apply grows_ret|].
  apply grows_bind; [apply grows_lift | intros host].
  apply grows_if; [apply grows_ret|].
  apply grows_bind; [apply Gr | intros; apply grows_lift].
Qed.

(** the gate logs its verdict *)
Lemma is_safe_url_logs (W : World) (url : string) (h : history) v h1 :
  is_safe_url W url h = (Ok v, h1) ->
  exists evs, h1 = (Gate url v :: evs ++ h)%list.
Proof.
  unfold is_safe_url.
  destruct (@grows_try _ _ (fun _ => ret false) (grows_validate W url)
                        (fun _ => grows_ret false) h)
    as [evs G].
  run. destruct (match validate W url h with
                 | (Ok a, h') => (Ok a, h')
                 | (Raise _, h') => (Ok false, h')
                 end) as [[b|e] h0]; simpl in G; subst h0.
  - intros E; injection E as <- <-. now exists evs.
  - discriminate.
Qed.

Lemma schedule_returns (W : World) (story_ids : list json)
      (tasks : list string) (h : history) :
  exists tasks' h',
    schedule W story_ids tasks h = (Ok tasks', h')
    /\ (exists evs, h' = (evs ++ h)%list)
    /\ forall u, In u tasks' ->
                 In u tasks
                 \/ (In (Gate u true) h'
                     /\ exists sid, In sid story_ids /\ u = item_url W sid).
Proof.
  revert tasks h; induction story_ids as [|sid rest IH]; intros tasks h.
  - exists tasks, h. split; [reflexivity|]. split; [now exists []|]. auto.
  - simpl schedule. unfold bind at 1.
    destruct (is_safe_url_returns W (item_url W sid) h) as (v & h1 & E).
    rewrite E. destruct (is_safe_url_logs _ _ _ E) as [evs1 ->].
    destruct (IH (if v then (tasks ++ [item_url W sid])%list else tasks)
                 (Gate (item_url W sid) v :: evs1 ++ h)%list)
      as (tasks' & h' & E' & [evs2 ->] & Hall).
    exists tasks', (evs2 ++ Gate (item_url W sid) v :: evs1 ++ h)%list.
    split; [exact E'|]. split.
    { exists (evs2 ++ Gate (item_url W sid) v :: evs1)%list.
      now rewrite <- app_assoc. }
    intros u Hu. destruct (Hall u Hu) as [Hold | [Hgate (s & Hs & ->)]].
    + destruct v; [|now left].
      apply in_app_or in Hold as [Hold | [<- | []]]; [now left|].
      right. split.
      * apply in_or_app; right. now left.
      * exists sid; split; [now left | reflexivity].
    + right. split; [exact Hgate|]. exists s; split; [now right | reflexivity].
Qed.

(** *** Collecting *)

Lemma hn_collect_skips_failures (W : World) (responses : list (result Response))
      (acc : list OpportunityRecord) :
  hn_collect W responses acc = hn_collect W (filter ok_status responses) acc.
Proof.
  revert acc; induction responses as [|r rest IH]; intros acc; [reflexivity|].
  destruct r as [resp|e]; simpl; [|apply IH].
  destruct (status_code resp =? 200) eqn:Es; simpl; [|apply IH].
  rewrite Es; simpl.
  destruct (hn_story W resp) as [o|e]; simpl; [apply IH | reflexivity].
Qed.

Lemma hn_collect_in_order (W : World) (responses : list (result Response))
      (acc l : list OpportunityRecord) :
  hn_collect W responses acc = Ok l ->
  l = (acc ++ flat_map (kept W) responses)%list.
Proof.
  revert acc; induction responses as [|r rest IH]; intros acc; simpl.
  - intros E; injection E as <-. now rewrite app_nil_r.
  - destruct r as [resp|e]; simpl; [|apply IH].
    destruct (status_code resp =? 200); simpl; [|apply IH].
    destruct (hn_story W resp) as [[x|]|e]; simpl.
    + intros E. rewrite (IH _ E). now rewrite <- app_assoc.
    + apply IH.
    + discriminate.
Qed.

Lemma slice_stop_nonneg (n : Z) (len : nat) :
  0 <= n -> slice_stop n len = Z.to_nat n.
Proof. intros Hn. unfold slice_stop. now destruct (Z.leb_spec 0 n); [|lia]. Qed.

(** *** The harvest against the gate and the network *)

(** the gate adds its verdict and at most a DNS lookup *)
Lemma is_safe_url_history (W : World) (url : string) (h : history) :
  exists v,
    is_safe_url W url h = (Ok v, Gate url v :: h)
    \/ exists host, is_safe_url W url h = (Ok v, Gate url v :: Dns host :: h).
Proof.
  unfold is_safe_url, validate, resolve. run.
  destruct (urlparse W url) as [parsed|e]; [|eexists; left; reflexivity].
  destruct (negb (String.eqb (scheme parsed) "https"));
    [eexists; left; reflexivity|].
  destruct (hostname parsed) as [host|]; [|eexists; left; reflexivity].
  destruct (negb (is_allowed (str_lower W host)));
    [eexists; left; reflexivity|].
  destruct (gethostbyname_ex W h (str_lower W host)) as [ip_list|e];
    [|eexists; right; eexists; reflexivity].
  destruct (check_ips W ip_list) as [b|e]; eexists; right; eexists; reflexivity.
Qed.


Lemma passing_cons (u : string) (v : bool) urls vs :
  passing (u :: urls) (v :: vs)
  = if v then u :: passing urls vs else passing urls vs.
Proof. unfold passing. simpl. now destruct v. Qed.

(** the tasks are the URLs of the identifiers that the gate passes, each
    checked in its turn *)
Lemma schedule_is_gate_each (W : World) (story_ids : list json)
      (tasks : list string) (h : history) :
  schedule W story_ids tasks h
  = (Ok (tasks
           ++ passing (map (item_url W) story_ids)
                      (fst (gate_each W (map (item_url W) story_ids) h)))%list,
     snd (gate_each W (map (item_url W) story_ids) h)).
Proof.
  revert tasks h; induction story_ids as [|sid rest IH]; intros tasks h.
  - simpl. unfold ret, passing. simpl. now rewrite app_nil_r.
  - simpl schedule. unfold bind at 1.
    destruct (is_safe_url_returns W (item_url W sid) h) as (v & h1 & E).
    rewrite E, IH. simpl map. simpl gate_each. rewrite E. cbn [fst snd].
    destruct (gate_each W (map (item_url W) rest) h1) as [vs h'].
    cbn [fst snd]. rewrite passing_cons.
    destruct v; [|reflexivity]. now rewrite <- app_assoc.
Qed.

(** the gate checks leave one verdict for each URL, in order, and fetch
    nothing *)
Lemma gate_each_trace (W : World) (urls : list string) (h : history) :
  List.length (fst (gate_each W urls h)) = List.length urls
  /\ exists evs,
       snd (gate_each W urls h) = (evs ++ h)%list
       /\ checks evs = combine urls (fst (gate_each W urls h))
       /\ fetched evs = [].
Proof.
  revert h; induction urls as [|u rest IH]; intros h.
  - split; [reflexivity|]. exists []. repeat split.
  - simpl gate_each.
    destruct (IH (snd (is_safe_url W u h))) as (Hlen & evs & Eh & Ec & Ef).
    destruct (gate_each W rest (snd (is_safe_url W u h))) as [vs h'].
    cbn [fst snd] in *.
    split; [simpl; now rewrite Hlen|].
    destruct (is_safe_url_history W u h) as [v [E | [host E]]];
      rewrite E in *; cbn [fst snd] in *; subst h'.
    + exists (evs ++ [Gate u v])%list. split; [now rewrite <- app_assoc|].
      unfold checks, fetched in *. rewrite rev_app_distr. simpl.
      now rewrite Ec, Ef.
    + exists (evs ++ [Gate u v; Dns host])%list.
      split; [now rewrite <- app_assoc|].
      unfold checks, fetched in *. rewrite rev_app_distr. simpl.
      now rewrite Ec, Ef.
Qed.

(** the outcomes are the answers of the network to the GETs of the tasks,
    issued in the order of the tasks *)
Lemma issue_is_answers (W : World) (tasks : list string) (h : history) :
  issue W tasks h
  = (Ok (answers W h tasks), (rev (map (fun u => Get u []) tasks) ++ h)%list).
Proof.
  revert h; induction tasks as [|u rest IH]; intros h; [reflexivity|].
  simpl issue. unfold bind at 1, fetch at 1. unfold bind at 1.
  rewrite IH. unfold ret. simpl map; simpl rev.
  now rewrite <- app_assoc.
Qed.

(** the loop over the answers raises on the first unreadable one, and
    otherwise collects the records of the OK answers in their order *)
Lemma hn_collect_readable (W : World) (responses : list (result Response))
      (acc : list OpportunityRecord) :
  match hn_collect W responses acc with
  | Ok l =>
      existsb (unreadable W) responses = false
      /\ l = (acc ++ flat_map (kept W) (filter ok_status responses))%list
  | Raise _ => existsb (unreadable W) responses = true
  end.
Proof.
  revert acc; induction responses as [|r rest IH]; intros acc.
  - simpl. now rewrite app_nil_r.
  - destruct r as [resp|e]; simpl; [|apply IH].
    destruct (status_code resp =? 200) eqn:Es; simpl; [|apply IH].
    rewrite Es. destruct (hn_story W resp) as [o|e]; simpl; [|reflexivity].
    specialize (IH (push o acc)).
    destruct (hn_collect W rest (push o acc)) as [l|e]; [|exact IH].
    destruct IH as [Hnone ->]. split; [exact Hnone|].
    destruct o; simpl; [now rewrite <- app_assoc | reflexivity].
Qed.

(** C8: on a listing of identifiers the harvest checks the item URL of
    each identifier that the slice up to [limit] keeps, which are the
    first [limit] when [limit >= 0], one gate check for each, in the
    order of the listing and before any detail fetch; it then issues a GET
    for exactly the URLs whose check passed, in that order; whatever the
    order in which the fetches complete it returns the records of the
    answers the network gave to those GETs, in the order of issue; an
    answer that is an exception or has a status other than OK takes away
    its own record only (the batch is lost only to an OK answer from
    which no story can be read). *)
Theorem hn_fetches_first_ids_in_order
    (W : World) (limit : Z) (h : history) (resp : Response) (ids : list json) :
  fst (is_safe_url W hn_listing_url h) = Ok true ->
  http W (Sleep :: snd (is_safe_url W hn_listing_url h)) hn_listing_url []
  = Ok resp ->
  body resp = Ok (JList ids) ->
  let h2 := Get hn_listing_url [] :: Sleep
              :: snd (is_safe_url W hn_listing_url h) in
  let first_ids := firstn (slice_stop limit (List.length ids)) ids in
  let urls := map (item_url W) first_ids in
  let verdicts := fst (gate_each W urls h2) in
  let h3 := snd (gate_each W urls h2) in
  let tasks := passing urls verdicts in
  let outcomes := answers W h3 tasks in
  (0 <= limit -> first_ids = firstn (Z.to_nat limit) ids)
  /\ List.length verdicts = List.length first_ids
  /\ (exists evs,
         h3 = (evs ++ h2)%list
         /\ checks evs = combine urls verdicts
         /\ fetched evs = [])
  /\ (forall rank,
         scrape_hn_opportunities (with_rank W rank) limit h
         = (Ok (if existsb (unreadable W) outcomes then []
                else flat_map (kept W) (filter ok_status outcomes)),
            (rev (map (fun u => Get u []) tasks) ++ h3)%list)).
Proof.
  intros Hsafe Hget Hbody h2 first_ids urls verdicts h3 tasks outcomes.
  split; [intros Hlimit; subst first_ids; now rewrite slice_stop_nonneg|].
  destruct (gate_each_trace W urls h2) as [Hlen Htrace].
  split; [subst verdicts urls; now rewrite Hlen, length_map|].
  split; [exact Htrace|].
  intros rank. unfold scrape_hn_opportunities.
  change (is_safe_url (with_rank W rank)) with (is_safe_url W).
  change (requests_get (with_rank W rank)) with (requests_get W).
  change (schedule (with_rank W rank)) with (schedule W).
  change (hn_collect (with_rank W rank)) with (hn_collect W).
  unfold bind at 1.
  subst outcomes tasks h3 verdicts urls first_ids h2.
  destruct (is_safe_url W hn_listing_url h) as [r h1].
  cbn [fst snd] in *; subst r.
  unfold try_except, requests_get, fetch. run.
  change (negb true) with false. cbv beta iota.
  rewrite Hget, Hbody.
  cbn [py_slice py_iter]. cbv beta iota.
  rewrite schedule_is_gate_each. cbn [app].
  rewrite gather_is_issue.
  change (issue (with_rank W rank)) with (issue W).
  rewrite issue_is_answers.
  match goal with
  | |- context [hn_collect W ?rs []] =>
      pose proof (hn_collect_readable W rs []) as Hc;
      destruct (hn_collect W rs []) as [l|e]
  end.
  - destruct Hc as [-> ->]. reflexivity.
  - rewrite Hc. reflexivity.
Qed.

Lemma hn_fetches_first_ids_in_order_witness :
  let W := hn_world in
  let ids := [JInt 1; JInt 2; JInt 3] in
  let h2 := Get hn_listing_url [] :: Sleep
              :: snd (is_safe_url W hn_listing_url []) in
  let first_ids := firstn (slice_stop 2 (List.length ids)) ids in
  let urls := map (item_url W) first_ids in
  let verdicts := fst (gate_each W urls h2) in
  let h3 := snd (gate_each W urls h2) in
  let tasks := passing urls verdicts in
  let outcomes := answers W h3 tasks in
  (0 <= 2 -> first_ids = firstn (Z.to_nat 2) ids)
  /\ List.length verdicts = List.length first_ids
  /\ (exists evs,
         h3 = (evs ++ h2)%list
         /\ checks evs = combine urls verdicts
         /\ fetched evs = [])
  /\ (forall rank,
         scrape_hn_opportunities (with_rank W rank) 2 []
         = (Ok (if existsb (unreadable W) outcomes then []
                else flat_map (kept W) (filter ok_status outcomes)),
            (rev (map (fun u => Get u []) tasks) ++ h3)%list)).
Proof.
  apply (@hn_fetches_first_ids_in_order hn_world 2 [] hn_listing
           [JInt 1; JInt 2; JInt 3]); reflexivity.
Defined.

(** the same harvest, run: two identifiers of three are fetched, the
    refused fetch loses its own record only *)
Example hn_harvest_of_two :
  fst (scrape_hn_opportunities hn_world 2 [])
  = Ok [ {| rec_id := JStr "1";
            rec_text := "[HN] How to invoice clients - details";
            rec_url := JStr "https://news.ycombinator.com/item?id=1";
            rec_source := "Hacker News" |} ]
  /\ fst (scrape_hn_opportunities hn_world 3 [])
     = Ok [ {| rec_id := JStr "1";
               rec_text := "[HN] How to invoice clients - details";
               rec_url := JStr "https://news.ycombinator.com/item?id=1";
               rec_source := "Hacker News" |};
            {| rec_id := JStr "3";
               rec_text := "[HN] I wish there was a better CRM - details";
               rec_url := JStr "https://news.ycombinator.com/item?id=3";
               rec_source := "Hacker News" |} ]
  /\ requests (snd (scrape_hn_opportunities hn_world 2 [])) = 3%nat.
Proof. repeat split; vm_compute; reflexivity. Qed.

(** ** The two gated harvesters *)

Lemma passed_app (u : string) (evs h : history) :
  passed u h = true -> passed u (evs ++ h)%list = true.
Proof.
  unfold passed. rewrite existsb_app. intros ->. apply orb_true_r.
Qed.

Lemma passed_cons (u : string) (e : event) (h : history) :
  passed u h = true -> passed u (e :: h) = true.
Proof. apply (passed_app u [e] h). Qed.

Lemma gate_keeps (W : World) (url : string) (h : history) :
  exists v h',
    is_safe_url W url h = (Ok v, h')
    /\ (gated h = true -> gated h' = true)
    /\ (v = true -> passed url h' = true)
    /\ (forall u, passed u h = true -> passed u h' = true).
Proof.
  destruct (is_safe_url_history W url h) as [v [E | [host E]]];
    rewrite E; eexists _, _; (split; [reflexivity|]); repeat split.
  - trivial.
  - intros ->. unfold passed; simpl. now rewrite String.eqb_refl.
  - intros u Hu. now apply passed_cons.
  - trivial.
  - intros ->. unfold passed; simpl. now rewrite String.eqb_refl.
  - intros u Hu. now apply passed_cons, passed_cons.
Qed.

Lemma retry_loop_gated (W : World) url clean_sub range acc h :
  passed url h = true -> gated h = true ->
  gated (snd (retry_loop W url clean_sub range acc h)) = true.
Proof.
  revert acc h; induction range as [|attempt rest IH]; intros acc h Hp Hg.
  - exact Hg.
  - assert (Hget : gated (Get url [] :: Choice :: h) = true).
    { cbn [gated]. rewrite (passed_cons _ Choice _ Hp). exact Hg. }
    rewrite retry_loop_step. cbv zeta.
    destruct (succeeded W clean_sub (http W (Choice :: h) url []));
      [exact Hget|].
    destruct (attempt <? attempts)%nat; apply IH; trivial;
      repeat apply passed_cons; exact Hp.
Qed.

Lemma reddit_subs_gated (W : World) (subs : list json) acc h :
  gated h = true -> gated (snd (reddit_subs W subs acc h)) = true.
Proof.
  revert acc h; induction subs as [|sub rest IH]; intros acc h Hg.
  - exact Hg.
  - destruct sub as [| | | | | |s| |]; try exact Hg.
    rewrite reddit_subs_cons. cbv zeta.
    destruct (gate_keeps W (reddit_url (str_strip W s)) h)
      as (v & h1 & E & Hg1 & Hp1 & _).
    rewrite E. destruct v; [|apply IH; auto].
    pose proof (@retry_loop_gated W (reddit_url (str_strip W s))
                  (str_strip W s) (seq 1 attempts) acc h1
                  (Hp1 eq_refl) (Hg1 Hg)) as Hg2.
    destruct (retry_loop W (reddit_url (str_strip W s)) (str_strip W s)
                (seq 1 attempts) acc h1) as [[r|e] h2]; simpl in Hg2.
    + apply IH; exact Hg2.
    + exact Hg2.
Qed.

(** X5: the feed harvest keeps a gated history gated: every GET it issues
    follows a gate check of the same URL that answered true. *)
Lemma feed_harvest_is_gated (W : World) (subreddits : json) (h : history) :
  gated h = true -> gated (snd (scrape_reddit_rss W subreddits h)) = true.
Proof.
  intros Hg. unfold scrape_reddit_rss. run.
  destruct (py_iter subreddits) as [subs|e]; [|exact Hg].
  now apply reddit_subs_gated.
Qed.

Lemma schedule_gated (W : World) (story_ids : list json) tasks h :
  gated h = true ->
  (forall u, In u tasks -> passed u h = true) ->
  exists tasks' h',
    schedule W story_ids tasks h = (Ok tasks', h')
    /\ gated h' = true
    /\ forall u, In u tasks' -> passed u h' = true.
Proof.
  revert tasks h; induction story_ids as [|sid rest IH]; intros tasks h Hg Hp.
  - exists tasks, h. auto.
  - simpl schedule. unfold bind at 1.
    destruct (gate_keeps W (item_url W sid) h) as (v & h1 & E & Hg1 & Hp1 & Hm).
    rewrite E. apply IH; [auto|].
    intros u Hu. destruct v; [|auto].
    apply in_app_or in Hu as [Hu | [<- | []]]; auto.
Qed.

Lemma issue_gated (tasks : list string) (h : history) :
  gated h = true ->
  (forall u, In u tasks -> passed u h = true) ->
  gated (rev (map (fun u => Get u []) tasks) ++ h)%list = true.
Proof.
  revert h; induction tasks as [|u rest IH]; intros h Hg Hp; [exact Hg|].
  simpl map; simpl rev. rewrite <- app_assoc. apply IH.
  - cbn [gated app]. rewrite Hp by now left. exact Hg.
  - intros u' Hu'. cbn [app]. apply passed_cons, Hp. now right.
Qed.

(** X4: the Hacker News harvest keeps a gated history gated: every GET it
    issues, for the listing and for each item, follows a gate check of the
    same URL that answered true. *)
Lemma hn_harvest_is_gated (W : World) (limit : Z) (h : history) :
  gated h = true ->
  gated (snd (scrape_hn_opportunities W limit h)) = true.
Proof.
  intros Hg. unfold scrape_hn_opportunities. unfold bind at 1.
  destruct (gate_keeps W hn_listing_url h) as (v & h1 & E & Hg1 & Hp1 & _).
  rewrite E. destruct v; [|exact (Hg1 Hg)].
  assert (Hlist : gated (Get hn_listing_url [] :: Sleep :: h1) = true).
  { cbn [gated]. rewrite (passed_cons _ Sleep _ (Hp1 eq_refl)). exact (Hg1 Hg). }
  unfold try_except, requests_get, fetch. run.
  change (negb true) with false. cbv beta iota.
  destruct (http W (Sleep :: h1) hn_listing_url []) as [resp|e]; [|exact Hlist].
  destruct (body resp) as [listing|e]; [|exact Hlist].
  destruct (py_slice listing limit) as [sliced|e]; [|exact Hlist].
  destruct (py_iter sliced) as [story_ids|e]; [|exact Hlist].
  destruct (@schedule_gated W story_ids [] _ Hlist) as (tasks & h3 & Es & Hg3 & Hp3).
  { intros u []. }
  rewrite Es. rewrite gather_is_issue.
  destruct (issue_returns W tasks h3) as (outcomes & Ei & _). rewrite Ei.
  destruct (hn_collect W outcomes []); simpl; now apply issue_gated.
Qed.

(** * Further properties of the code *)

(** ** The safety gate and the network *)

(** X1: the gate looks a host up in the DNS only for an https URL whose
    lower-cased host is allowlisted; every other URL is refused with no
    event but the verdict, and the gate itself never issues a GET. *)
Theorem gate_resolves_only_allowlisted_hosts
    (W : World) (url : string) (h : history) :
  is_safe_url W url h = (Ok false, Gate url false :: h)
  \/ exists parsed host verdict,
       urlparse W url = Ok parsed
       /\ scheme parsed = "https"
       /\ hostname parsed = Some host
       /\ allowlisted (str_lower W host)
       /\ is_safe_url W url h
          = (Ok verdict, Gate url verdict :: Dns (str_lower W host) :: h).
Proof.
  unfold is_safe_url, validate, resolve. run.
  destruct (urlparse W url) as [parsed|e] eqn:Ep; [|now left].
  destruct (String.eqb (scheme parsed) "https") eqn:Es; simpl; [|now left].
  destruct (hostname parsed) as [host|] eqn:Eh; [|now left].
  destruct (is_allowed (str_lower W host)) eqn:Ea; simpl; [|now left].
  apply String.eqb_eq in Es. apply is_allowed_spec in Ea.
  right. exists parsed, host.
  destruct (gethostbyname_ex W h (str_lower W host)) as [ip_list|e].
  - destruct (check_ips W ip_list) as [b|e]; eexists; repeat split; eauto.
  - eexists; repeat split; eauto.
Qed.

Lemma requests_app (a b : history) :
  requests (a ++ b)%list = (requests a + requests b)%nat.
Proof. unfold requests. now rewrite filter_app, List.length_app. Qed.

Lemma sleeps_app (a b : history) :
  sleeps (a ++ b)%list = (sleeps a + sleeps b)%nat.
Proof. unfold sleeps. now rewrite filter_app, List.length_app. Qed.

(** the gate adds neither a GET nor a sleep *)
Lemma is_safe_url_quiet (W : World) (url : string) (h : history) :
  exists v evs,
    is_safe_url W url h = (Ok v, (evs ++ h)%list)
    /\ requests evs = 0%nat /\ sleeps evs = 0%nat.
Proof.
  destruct (is_safe_url_history W url h) as [v [E | [host E]]]; rewrite E.
  - exists v, [Gate url v]. auto.
  - exists v, [Gate url v; Dns host]. auto.
Qed.

Lemma schedule_quiet (W : World) (story_ids : list json) tasks h :
  exists tasks' evs,
    schedule W story_ids tasks h = (Ok tasks', (evs ++ h)%list)
    /\ requests evs = 0%nat
    /\ (List.length tasks' <= List.length tasks + List.length story_ids)%nat.
Proof.
  revert tasks h; induction story_ids as [|sid rest IH]; intros tasks h.
  - exists tasks, []. simpl. repeat split; auto. lia.
  - simpl schedule. unfold bind at 1.
    destruct (is_safe_url_quiet W (item_url W sid) h) as (v & evs1 & E & Hr & _).
    rewrite E.
    destruct (IH (if v then (tasks ++ [item_url W sid])%list else tasks)
                 (evs1 ++ h)%list) as (tasks' & evs2 & E' & Hr' & Hlen).
    exists tasks', (evs2 ++ evs1)%list. rewrite <- app_assoc.
    split; [exact E'|]. split; [rewrite requests_app; lia|].
    destruct v; [rewrite List.length_app in Hlen|]; simpl in *; lia.
Qed.

Lemma length_chars (s : string) : List.length (chars s) = String.length s.
Proof. induction s as [|c s IH]; simpl; [reflexivity | now rewrite IH]. Qed.

Lemma length_take (n : nat) (s : string) : (String.length (take n s) <= n)%nat.
Proof.
  revert s; induction n as [|n IH]; intros [|c s]; simpl; try lia.
  specialize (IH s). lia.
Qed.

(** iterating over [v[:limit]] visits at most [limit] elements *)
Lemma slice_iter_length (v sliced : json) (limit : Z) (ids : list json) :
  0 <= limit ->
  py_slice v limit = Ok sliced -> py_iter sliced = Ok ids ->
  (List.length ids <= Z.to_nat limit)%nat.
Proof.
  intros Hl Hs Hi. destruct v; simpl in Hs; try discriminate;
    injection Hs as <-; simpl in Hi; injection Hi as <-;
    rewrite slice_stop_nonneg by exact Hl.
  - rewrite length_map, length_chars. apply length_take.
  - apply firstn_le_length.
Qed.

(** X2: whatever the world answers, a Hacker News harvest with a limit
    [limit >= 0] issues at most [1 + limit] GETs: the listing and one
    detail fetch for each of at most [limit] identifiers. *)
Theorem hn_harvest_requests_bounded
    (W : World) (limit : Z) (h : history) :
  0 <= limit ->
  (requests (added h (snd (scrape_hn_opportunities W limit h)))
   <= 1 + Z.to_nat limit)%nat.
Proof.
  intros Hlimit. unfold scrape_hn_opportunities. unfold bind at 1.
  destruct (is_safe_url_quiet W hn_listing_url h) as (v & evs1 & E & Hr1 & _).
  rewrite E. destruct v.
  2:{ simpl. rewrite added_app. lia. }
  assert (Hlist : forall A (r : result A),
             (requests (added h (snd (r, Get hn_listing_url [] :: Sleep
                                          :: (evs1 ++ h)%list)))
              <= 1 + Z.to_nat limit)%nat).
  { intros A r. simpl snd.
    change (Get hn_listing_url [] :: Sleep :: (evs1 ++ h)%list)
      with (([Get hn_listing_url []; Sleep] ++ evs1) ++ h)%list.
    rewrite added_app, requests_app, Hr1. simpl. lia. }
  unfold try_except, requests_get, fetch. run.
  change (negb true) with false. cbv beta iota.
  destruct (http W (Sleep :: (evs1 ++ h)%list) hn_listing_url [])
    as [resp|e]; [|apply (Hlist _ (Ok []))].
  destruct (body resp) as [listing|e]; [|apply (Hlist _ (Ok []))].
  destruct (py_slice listing limit) as [sliced|e] eqn:Es;
    [|apply (Hlist _ (Ok []))].
  destruct (py_iter sliced) as [story_ids|e] eqn:Ei;
    [|apply (Hlist _ (Ok []))].
  pose proof (slice_iter_length _ Hlimit Es Ei) as Hids.
  destruct (schedule_quiet W story_ids []
              (Get hn_listing_url [] :: Sleep :: (evs1 ++ h)%list))
    as (tasks & evs2 & Esch & Hr2 & Hlen).
  rewrite Esch. rewrite gather_is_issue.
  destruct (issue_returns W tasks
              (evs2 ++ Get hn_listing_url [] :: Sleep :: (evs1 ++ h)%list)%list)
    as (outcomes & Eissue & _).
  rewrite Eissue.
  assert (Hfinal :
            (rev (map (fun u => Get u []) tasks)
               ++ evs2 ++ Get hn_listing_url [] :: Sleep :: evs1 ++ h)%list
            = ((rev (map (fun u => Get u []) tasks)
                  ++ evs2 ++ [Get hn_listing_url []; Sleep] ++ evs1) ++ h)%list).
  { now rewrite <- !app_assoc. }
  assert (Hcount :
            requests (rev (map (fun u => Get u []) tasks)) = List.length tasks).
  { unfold requests. clear. induction tasks as [|u rest IH]; [reflexivity|].
    simpl. rewrite filter_app, List.length_app, IH. simpl. lia. }
  destruct (hn_collect W outcomes []); simpl snd; rewrite Hfinal, added_app;
    rewrite !requests_app, Hcount, Hr1, Hr2; simpl in *; lia.
Qed.

Lemma hn_harvest_requests_bounded_witness :
  (requests (added [] (snd (scrape_hn_opportunities hn_world 2 [])))
   <= 1 + Z.to_nat 2)%nat.
Proof.
  apply (@hn_harvest_requests_bounded hn_world 2 []). lia.
Defined.

Lemma retry_loop_quiet (W : World) url clean_sub range acc h :
  exists r evs,
    retry_loop W url clean_sub range acc h = (Ok r, (evs ++ h)%list)
    /\ (requests evs <= List.length range)%nat
    /\ (sleeps evs
        <= List.length (filter (fun a => (a <? attempts)%nat) range))%nat.
Proof.
  revert acc h; induction range as [|attempt rest IH]; intros acc h.
  - exists (acc, false), []. simpl. auto.
  - rewrite retry_loop_step. cbv zeta.
    destruct (succeeded W clean_sub (http W (Choice :: h) url [])).
    + eexists _, [Get url []; Choice]. split; [reflexivity|].
      unfold requests, sleeps; simpl. split; [lia|].
      destruct (attempt <? attempts)%nat; simpl; lia.
    + simpl filter. destruct (attempt <? attempts)%nat.
      * destruct (IH (acc ++ fst (reddit_attempt W clean_sub
                                    (http W (Choice :: h) url []) []))%list
                     (Sleep :: Get url [] :: Choice :: h))
          as (r & evs & E & Hr & Hs).
        exists r, (evs ++ [Sleep; Get url []; Choice])%list.
        rewrite <- app_assoc. split; [exact E|].
        rewrite requests_app, sleeps_app.
        unfold requests, sleeps in *; simpl. split; lia.
      * destruct (IH (acc ++ fst (reddit_attempt W clean_sub
                                    (http W (Choice :: h) url []) []))%list
                     (Get url [] :: Choice :: h))
          as (r & evs & E & Hr & Hs).
        exists r, (evs ++ [Get url []; Choice])%list.
        rewrite <- app_assoc. split; [exact E|].
        rewrite requests_app, sleeps_app.
        unfold requests, sleeps in *; simpl. split; lia.
Qed.

Lemma reddit_subs_quiet (W : World) (subs : list json) acc h :
  exists evs,
    snd (reddit_subs W subs acc h) = (evs ++ h)%list
    /\ (requests evs <= 3 * List.length subs)%nat
    /\ (sleeps evs <= 2 * List.length subs)%nat.
Proof.
  revert acc h; induction subs as [|sub rest IH]; intros acc h.
  - exists []. unfold requests, sleeps. simpl. auto.
  - destruct sub as [| | | | | |s| |];
      try (exists []; cbn [reddit_subs py_strip]; unfold bind, lift;
           unfold requests, sleeps; simpl; repeat split; lia).
    rewrite reddit_subs_cons. cbv zeta.
    destruct (is_safe_url_quiet W (reddit_url (str_strip W s)) h)
      as (v & evs1 & E & Hr1 & Hs1).
    rewrite E. destruct v.
    + destruct (retry_loop_quiet W (reddit_url (str_strip W s))
                  (str_strip W s) (seq 1 attempts) acc (evs1 ++ h)%list)
        as (r & evs2 & E2 & Hr2 & Hs2).
      rewrite E2. change (List.length (seq 1 attempts)) with 3%nat in Hr2.
      change (List.length (filter (fun a => (a <? attempts)%nat) (seq 1 attempts)))
        with 2%nat in Hs2.
      destruct (IH (fst r) (evs2 ++ evs1 ++ h)%list) as (evs3 & E3 & Hr3 & Hs3).
      exists (evs3 ++ evs2 ++ evs1)%list. rewrite E3, <- !app_assoc.
      split; [reflexivity|].
      rewrite !requests_app, !sleeps_app. simpl List.length. split; lia.
    + destruct (IH acc (evs1 ++ h)%list) as (evs3 & E3 & Hr3 & Hs3).
      exists (evs3 ++ evs1)%list. rewrite E3, <- !app_assoc.
      split; [reflexivity|].
      rewrite !requests_app, !sleeps_app. simpl List.length. split; lia.
Qed.

(** X3: whatever the world answers and whether or not the harvest ends
    with an exception, a feed harvest over a list of [n] communities
    issues at most [3 * n] GETs and sleeps at most [2 * n] times. *)
Theorem feed_harvest_requests_bounded
    (W : World) (subs : list json) (h : history) :
  (requests (added h (snd (scrape_reddit_rss W (JList subs) h)))
   <= 3 * List.length subs)%nat
  /\ (sleeps (added h (snd (scrape_reddit_rss W (JList subs) h)))
      <= 2 * List.length subs)%nat.
Proof.
  rewrite scrape_reddit_rss_list.
  destruct (reddit_subs_quiet W subs [] h) as (evs & E & Hr & Hs).
  rewrite E, added_app. auto.
Qed.

Lemma hn_harvest_is_gated_witness :
  gated (snd (scrape_hn_opportunities hn_world 2 [])) = true.
Proof. apply (@hn_harvest_is_gated hn_world 2 []). reflexivity. Defined.

Lemma feed_harvest_is_gated_witness :
  gated (snd (scrape_reddit_rss two_communities
                (JList [JStr "a"; JStr "b"]) []))
  = true.
Proof.
  apply (@feed_harvest_is_gated two_communities
           (JList [JStr "a"; JStr "b"]) []).
  reflexivity.
Defined.

(** ** The keyword filter of the Hacker News harvest *)

Lemma prefix_spec (p s : string) :
  String.prefix p s = true <-> exists rest, s = p ++ rest.
Proof.
  revert s; induction p as [|a p IH]; intros s.
  - destruct s; simpl; split; eauto.
  - destruct s as [|b s]; simpl.
    + split; [discriminate | intros [rest H]; discriminate].
    + destruct (ascii_dec a b) as [<- | Hne].
      * rewrite IH. split; intros [rest H]; exists rest.
        -- now rewrite H.
        -- now injection H.
      * split; [discriminate|]. intros [rest H]. injection H as H1 _.
        congruence.
Qed.

Lemma contains_spec (k s : string) :
  contains k s = true <-> mentions k s.
Proof.
  unfold mentions. induction s as [|c s IH].
  - cbn [contains]. rewrite orb_false_r. unfold startswith.
    rewrite prefix_spec.
    split.
    + intros [rest H]. exists "", rest. exact H.
    + intros (before & after & H). destruct before; [|discriminate].
      exists after. exact H.
  - cbn [contains]. rewrite orb_true_iff, IH. unfold startswith.
    rewrite prefix_spec.
    split.
    + intros [[rest H] | (before & after & H)].
      * exists "", rest. exact H.
      * exists (String c before), after. simpl. now rewrite H.
    + intros (before & after & H). destruct before as [|b before].
      * left. exists after. exact H.
      * right. simpl in H. injection H as _ H. now exists before, after.
Qed.

Lemma any_keyword_strings (W : World) (t x : string) (ks : list string) :
  any_keyword W (JStr t) (JStr x) ks
  = Ok (existsb (fun k => contains k (str_lower W t)
                          || contains k (str_lower W x)) ks).
Proof.
  induction ks as [|k rest IH]; simpl; [reflexivity|].
  destruct (contains k (str_lower W t)); simpl; [reflexivity|].
  destruct (contains k (str_lower W x)); simpl; [reflexivity | exact IH].
Qed.

Lemma py_or_str (s : string) : py_or (JStr s) (JStr "") = JStr s.
Proof.
  unfold py_or; simpl. destruct (String.eqb_spec s ""); simpl; congruence.
Qed.

(** X6: a story whose title and text are strings (or absent, which counts
    as empty) is kept exactly when one of the six keywords occurs in the
    lower-cased title or in the lower-cased text; the record kept is
    labelled Hacker News and its text is the title and the first 200
    characters of the text. *)
Theorem hn_story_kept_iff_keyword
    (W : World) (r : Response) (items : list (string * json))
    (t x : string) :
  body r = Ok (JObj items) ->
  py_get (JObj items) "title" (JStr "") = Ok (JStr t) ->
  py_get (JObj items) "text" (JStr "") = Ok (JStr x) ->
  match hn_story W r with
  | Ok (Some record) =>
      (exists k, In k keywords
                 /\ (mentions k (str_lower W t) \/ mentions k (str_lower W x)))
      /\ rec_text record = "[HN] " ++ t ++ " - " ++ take 200 x
      /\ rec_source record = "Hacker News"
  | Ok None =>
      forall k, In k keywords ->
                ~ mentions k (str_lower W t) /\ ~ mentions k (str_lower W x)
  | Raise _ => False
  end.
Proof.
  intros Hbody Ht Hx. unfold hn_story. rewrite Hbody. cbn [rbind].
  rewrite Hx. cbn [rbind]. rewrite Ht. cbn [rbind].
  rewrite !py_or_str, any_keyword_strings. cbn [rbind].
  destruct (existsb _ keywords) eqn:Ek.
  - simpl. apply existsb_exists in Ek as (k & Hin & Hk).
    split; [|split; reflexivity].
    exists k. split; [exact Hin|].
    apply orb_true_iff in Hk as [Hk | Hk]; apply contains_spec in Hk; auto.
  - intros k Hin.
    assert (Hk : contains k (str_lower W t) || contains k (str_lower W x)
                 = false).
    { destruct (contains k (str_lower W t) || contains k (str_lower W x))
        eqn:E; [|reflexivity].
      assert (existsb (fun k => contains k (str_lower W t)
                                || contains k (str_lower W x)) keywords = true).
      { apply existsb_exists. now exists k. }
      congruence. }
    apply orb_false_iff in Hk as [H1 H2].
    split; intros Hm; apply contains_spec in Hm; congruence.
Qed.

Lemma hn_story_kept_iff_keyword_witness :
  match hn_story hn_world first_story with
  | Ok (Some record) =>
      (exists k,
          In k keywords
          /\ (mentions k (str_lower hn_world "How to invoice clients")
              \/ mentions k (str_lower hn_world "details")))
      /\ rec_text record
         = "[HN] " ++ "How to invoice clients" ++ " - " ++ take 200 "details"
      /\ rec_source record = "Hacker News"
  | Ok None =>
      forall k,
        In k keywords ->
        ~ mentions k (str_lower hn_world "How to invoice clients")
        /\ ~ mentions k (str_lower hn_world "details")
  | Raise _ => False
  end.
Proof.
  apply (@hn_story_kept_iff_keyword hn_world first_story
           [("id", JInt 1); ("title", JStr "How to invoice clients");
            ("text", JStr "details")]);
    reflexivity.
Defined.

(** ** What the Hacker News harvest returns *)

Lemma hn_story_labelled (W : World) (r : Response) (record : OpportunityRecord) :
  hn_story W r = Ok (Some record) -> hn_record record.
Proof.
  unfold hn_story, rbind.
  destruct (body r) as [story|e]; [|discriminate].
  destruct (py_get story "text" (JStr "")) as [text0|e]; [|discriminate].
  destruct (py_get story "title" (JStr "")) as [title0|e]; [|discriminate].
  destruct (any_keyword W _ _ keywords) as [[|]|e]; try discriminate.
  destruct (py_get story "id" JNull) as [sid|e]; [|discriminate].
  destruct (py_slice _ 200) as [excerpt|e]; [|discriminate].
  intros E; injection E as <-. split; [reflexivity|].
  eexists _, _. repeat split; reflexivity.
Qed.

Lemma hn_collect_keeps (W : World) (P : OpportunityRecord -> Prop)
      (responses : list (result Response)) (acc l : list OpportunityRecord) :
  (forall r record, hn_story W r = Ok (Some record) -> P record) ->
  Forall P acc -> hn_collect W responses acc = Ok l -> Forall P l.
Proof.
  intros Hstep. revert acc; induction responses as [|r rest IH];
    intros acc Hacc; simpl.
  - intros E; injection E as <-. exact Hacc.
  - destruct r as [resp|e]; [|now apply IH].
    destruct (negb (status_code resp =? 200)); [now apply IH|].
    destruct (hn_story W resp) as [[record|]|e] eqn:Es; simpl.
    + apply IH. apply Forall_app; split; [exact Hacc|].
      constructor; [now apply (Hstep resp) | constructor].
    + now apply IH.
    + discriminate.
Qed.

(** the harvest returns nothing, or what the loop over the answers
    collected *)
Lemma hn_harvest_cases (W : World) (limit : Z) (h : history) :
  exists l h',
    scrape_hn_opportunities W limit h = (Ok l, h')
    /\ (l = [] \/ exists responses, hn_collect W responses [] = Ok l).
Proof.
  unfold scrape_hn_opportunities. unfold bind at 1.
  destruct (is_safe_url_returns W hn_listing_url h) as (v & h1 & ->).
  destruct v; [|eexists _, _; split; [reflexivity | now left]].
  unfold try_except, requests_get, fetch. run.
  change (negb true) with false. cbv beta iota.
  destruct (http W (Sleep :: h1) hn_listing_url []) as [resp|e];
    [|eexists _, _; split; [reflexivity | now left]].
  destruct (body resp) as [listing|e];
    [|eexists _, _; split; [reflexivity | now left]].
  destruct (py_slice listing limit) as [sliced|e];
    [|eexists _, _; split; [reflexivity | now left]].
  destruct (py_iter sliced) as [story_ids|e];
    [|eexists _, _; split; [reflexivity | now left]].
  destruct (schedule_returns W story_ids []
              (Get hn_listing_url [] :: Sleep :: h1))
    as (tasks & h3 & -> & _). rewrite gather_is_issue.
  destruct (issue_returns W tasks h3) as (outcomes & -> & _).
  destruct (hn_collect W outcomes []) as [l|e] eqn:Ec;
    eexists _, _; (split; [reflexivity|]); [right | left]; eauto.
Qed.

(** X7: the Hacker News harvest never raises, and every record it returns
    is labelled Hacker News, has a string id, links to the item page of
    that id on news.ycombinator.com and has a text that begins with the
    tag [HN]. *)
Theorem hn_harvest_returns_labelled_records
    (W : World) (limit : Z) (h : history) :
  exists l h',
    scrape_hn_opportunities W limit h = (Ok l, h') /\ Forall hn_record l.
Proof.
  destruct (hn_harvest_cases W limit h) as (l & h' & E & Hl).
  exists l, h'. split; [exact E|].
  destruct Hl as [-> | [rs Hc]]; [constructor|].
  apply (@hn_collect_keeps W hn_record rs [] l); trivial.
  intros r record. apply hn_story_labelled.
Qed.

Lemma hn_story_needs_object (W : World) (resp : Response) :
  no_story resp = true -> exists e, hn_story W resp = Raise e.
Proof.
  unfold no_story, hn_story, rbind.
  destruct (body resp) as [[]|e]; try discriminate; intros _; eexists;
    reflexivity.
Qed.

Lemma hn_collect_raises (W : World) (responses : list (result Response))
      (acc : list OpportunityRecord) (resp : Response) :
  In (Ok resp) responses ->
  status_code resp = 200 ->
  (exists e, hn_story W resp = Raise e) ->
  exists e, hn_collect W responses acc = Raise e.
Proof.
  intros Hin Hs [e He]. revert acc.
  induction responses as [|r rest IH]; intros acc; [destruct Hin|].
  destruct Hin as [-> | Hin]; simpl.
  - rewrite Hs, He. simpl. now exists e.
  - destruct r as [resp'|e']; [|now apply IH].
    destruct (negb (status_code resp' =? 200)); [now apply IH|].
    destruct (hn_story W resp') as [o|e']; simpl; [now apply IH | now exists e'].
Qed.

(** the harvest after a listing of identifiers *)
Lemma hn_harvest_run
    (W : World) (limit : Z) (h : history) (resp : Response) (ids : list json) :
  fst (is_safe_url W hn_listing_url h) = Ok true ->
  http W (Sleep :: snd (is_safe_url W hn_listing_url h)) hn_listing_url []
  = Ok resp ->
  body resp = Ok (JList ids) ->
  exists tasks h3 outcomes h4,
    schedule W (firstn (slice_stop limit (List.length ids)) ids) []
             (Get hn_listing_url [] :: Sleep
                :: snd (is_safe_url W hn_listing_url h))
    = (Ok tasks, h3)
    /\ issue W tasks h3 = (Ok outcomes, h4)
    /\ scrape_hn_opportunities W limit h
       = (Ok (match hn_collect W outcomes [] with
              | Ok l => l
              | Raise _ => []
              end), h4).
Proof.
  intros Hsafe Hget Hbody.
  destruct (schedule_returns W
              (firstn (slice_stop limit (List.length ids)) ids) []
              (Get hn_listing_url [] :: Sleep
                 :: snd (is_safe_url W hn_listing_url h)))
    as (tasks & h3 & Esched & _).
  destruct (issue_returns W tasks h3) as (outcomes & Eissue & _).
  eexists tasks, h3, outcomes, _.
  split; [exact Esched|]. split; [exact Eissue|].
  unfold scrape_hn_opportunities. unfold bind at 1.
  destruct (is_safe_url W hn_listing_url h) as [r h1].
  simpl in Hsafe, Hget, Esched; subst r.
  unfold try_except, requests_get, fetch. run.
  change (negb true) with false. cbv beta iota.
  rewrite Hget, Hbody.
  cbn [py_slice py_iter]. cbv beta iota. rewrite Esched.
  rewrite gather_is_issue, Eissue.
  destruct (hn_collect W outcomes []); reflexivity.
Qed.

(** X8: a single detail answer with the OK status whose body is not a JSON
    object (the item endpoint answers null for a deleted story) makes the
    harvest return the empty list: the records of all the other stories
    of the batch are lost with it. *)
Theorem hn_one_bodiless_answer_empties_the_batch
    (W : World) (limit : Z) (h : history) (resp : Response) (ids : list json) :
  fst (is_safe_url W hn_listing_url h) = Ok true ->
  http W (Sleep :: snd (is_safe_url W hn_listing_url h)) hn_listing_url []
  = Ok resp ->
  body resp = Ok (JList ids) ->
  exists tasks h3 outcomes h4,
    schedule W (firstn (slice_stop limit (List.length ids)) ids) []
             (Get hn_listing_url [] :: Sleep
                :: snd (is_safe_url W hn_listing_url h))
    = (Ok tasks, h3)
    /\ issue W tasks h3 = (Ok outcomes, h4)
    /\ ((exists answer,
            In (Ok answer) outcomes
            /\ status_code answer = 200 /\ no_story answer = true) ->
        scrape_hn_opportunities W limit h = (Ok [], h4)).
Proof.
  intros Hsafe Hget Hbody.
  destruct (hn_harvest_run W limit h Hsafe Hget Hbody)
    as (tasks & h3 & outcomes & h4 & Es & Ei & Erun).
  exists tasks, h3, outcomes, h4.
  split; [exact Es|]. split; [exact Ei|].
  intros (answer & Hin & Hs & Hno).
  destruct (hn_collect_raises W outcomes [] answer Hin Hs
              (hn_story_needs_object W answer Hno)) as [e He].
  now rewrite Erun, He.
Qed.

Lemma hn_one_bodiless_answer_empties_the_batch_witness :
  fst (scrape_hn_opportunities hn_deleted 20 []) = Ok [].
Proof.
  destruct (@hn_one_bodiless_answer_empties_the_batch hn_deleted 20 []
              short_listing [JInt 1; JInt 2] eq_refl eq_refl eq_refl)
    as (tasks & h3 & outcomes & h4 & Es & Ei & Hlost).
  vm_compute in Es. injection Es as <- <-.
  vm_compute in Ei. injection Ei as <- <-.
  rewrite Hlost; [reflexivity|].
  exists {| status_code := 200; text := ""; body := Ok JNull |}.
  split; [right; left; reflexivity | split; reflexivity].
Defined.

(** ** What the feed harvest returns *)

Lemma reddit_post_labelled (W : World) (clean_sub : string) (post : json)
      (record : OpportunityRecord) :
  reddit_post W clean_sub post = Ok (Some record) ->
  exists permalink excerpt,
    rec_source record = "Reddit r/" ++ clean_sub
    /\ rec_url record = JStr ("https://reddit.com" ++ permalink)
    /\ rec_text record = "[Reddit r/" ++ clean_sub ++ "] " ++ excerpt.
Proof.
  unfold reddit_post, rbind.
  destruct (py_get post "data" (JObj [])) as [p_data|e]; [|discriminate].
  destruct (py_get p_data "title" (JStr "")) as [t|e]; [|discriminate].
  destruct (py_get p_data "selftext" (JStr "")) as [selftext|e];
    [|discriminate].
  destruct (py_get p_data "stickied" JNull) as [stickied|e]; [|discriminate].
  destruct (truthy stickied); [discriminate|].
  destruct (py_len t) as [n|e]; [|discriminate].
  destruct (n <? 10); [discriminate|].
  destruct (py_get p_data "id" JNull) as [pid|e]; [|discriminate].
  destruct (py_slice selftext 200) as [excerpt|e]; [|discriminate].
  destruct (py_get p_data "permalink" JNull) as [permalink|e]; [|discriminate].
  intros E; injection E as <-. eexists _, _. repeat split; reflexivity.
Qed.

Lemma append_each_keeps (P : OpportunityRecord -> Prop) step items acc :
  (forall x record, step x = Ok (Some record) -> P record) ->
  Forall P acc -> Forall P (fst (append_each step items acc)).
Proof.
  intros Hstep. revert acc; induction items as [|x rest IH]; intros acc Hacc;
    simpl; [exact Hacc|].
  destruct (step x) as [[record|]|e] eqn:Ex; simpl.
  - apply IH. apply Forall_app; split; [exact Hacc|].
    constructor; [now apply (Hstep x) | constructor].
  - now apply IH.
  - exact Hacc.
Qed.

Lemma reddit_attempt_keeps (W : World) (P : OpportunityRecord -> Prop)
      clean_sub outcome acc :
  (forall post record,
      reddit_post W clean_sub post = Ok (Some record) -> P record) ->
  Forall P acc -> Forall P (fst (reddit_attempt W clean_sub outcome acc)).
Proof.
  intros Hstep Hacc. unfold reddit_attempt.
  destruct outcome as [resp|e]; [|exact Hacc].
  destruct (status_code resp =? 200); [|exact Hacc].
  destruct (reddit_children resp) as [posts|e]; [|exact Hacc].
  unfold reddit_posts.
  pose proof (@append_each_keeps P (reddit_post W clean_sub) posts acc
                Hstep Hacc) as H.
  destruct (append_each (reddit_post W clean_sub) posts acc) as [l [u|e]];
    exact H.
Qed.

Lemma retry_loop_keeps (W : World) (P : OpportunityRecord -> Prop)
      url clean_sub range acc h r h' :
  (forall post record,
      reddit_post W clean_sub post = Ok (Some record) -> P record) ->
  Forall P acc ->
  retry_loop W url clean_sub range acc h = (Ok r, h') ->
  Forall P (fst r).
Proof.
  intros Hstep. revert acc h; induction range as [|attempt rest IH];
    intros acc h Hacc.
  - simpl. unfold ret. intros E; injection E as <- _. exact Hacc.
  - rewrite retry_loop_step. cbv zeta.
    assert (Hnext : Forall P (acc ++ fst (reddit_attempt W clean_sub
                                            (http W (Choice :: h) url []) []))%list).
    { apply Forall_app; split; [exact Hacc|].
      apply reddit_attempt_keeps; [exact Hstep | constructor]. }
    destruct (succeeded W clean_sub (http W (Choice :: h) url [])).
    + intros E; injection E as <- _. exact Hnext.
    + destruct (attempt <? attempts)%nat; now apply IH.
Qed.

Lemma reddit_subs_keep (W : World) (all names : list string) acc h l h' :
  incl names all ->
  Forall (reddit_record W all) acc ->
  reddit_subs W (map JStr names) acc h = (Ok l, h') ->
  Forall (reddit_record W all) l.
Proof.
  revert acc h; induction names as [|sub rest IH]; intros acc h Hincl Hacc.
  - simpl. unfold ret. intros E; injection E as <- _. exact Hacc.
  - simpl map. rewrite reddit_subs_cons. cbv zeta.
    assert (Hrest : incl rest all).
    { intros x Hx. apply Hincl. now right. }
    destruct (is_safe_url W (reddit_url (str_strip W sub)) h)
      as [[[|]|e] h1]; [|now apply IH|discriminate].
    destruct (retry_loop W (reddit_url (str_strip W sub)) (str_strip W sub)
                (seq 1 attempts) acc h1) as [[r|e] h2] eqn:Er; [|discriminate].
    apply IH; [exact Hrest|].
    eapply retry_loop_keeps; [|exact Hacc|exact Er].
    intros post record Hpost.
    destruct (reddit_post_labelled W _ _ Hpost) as (permalink & excerpt & H).
    exists sub, permalink, excerpt. split; [apply Hincl; now left | exact H].
Qed.

(** X9: for a list of community names the feed harvest returns records
    that each carry the label, the text tag and a reddit.com link of one
    of the named communities (its name stripped), whatever the world
    answers. *)
Theorem feed_harvest_returns_labelled_records
    (W : World) (names : list string) (h : history) :
  exists l h',
    scrape_reddit_rss W (JList (map JStr names)) h = (Ok l, h')
    /\ Forall (reddit_record W names) l.
Proof.
  rewrite scrape_reddit_rss_list.
  destruct (reddit_subs_returns W names [] h) as (l & h' & E).
  exists l, h'. split; [exact E|].
  apply (@reddit_subs_keep W names names [] h l h'); trivial.
  - apply incl_refl.
Qed.

(** ** Partial parses and ill-typed communities *)

(** an attempt whose loop over the posts raises is not a success, and
    what it had appended stays *)
Lemma reddit_attempt_partial (W : World) clean_sub resp posts items e :
  status_code resp = 200 ->
  reddit_children resp = Ok posts ->
  append_each (reddit_post W clean_sub) posts [] = (items, Raise e) ->
  reddit_attempt W clean_sub (Ok resp) [] = (items, false).
Proof.
  intros Hs Hc Ha. unfold reddit_attempt, reddit_posts.
  now rewrite Hs, Hc, Ha.
Qed.

(** X10: when each of the three attempts for a community is answered with
    the OK status and a feed whose posts parse up to a post that raises,
    the community counts as failed, yet the records of the posts before
    the faulty one are in the result three times, once per attempt. *)
Theorem reddit_partial_parse_is_repeated
    (W : World) (clean_sub : string) (acc : list OpportunityRecord)
    (h : history) (resp : Response) (posts : list json)
    (items : list OpportunityRecord) (e : exn) :
  (forall k, (k < 3)%nat -> answer W (reddit_url clean_sub) h k = Ok resp) ->
  status_code resp = 200 ->
  reddit_children resp = Ok posts ->
  append_each (reddit_post W clean_sub) posts [] = (items, Raise e) ->
  retry_loop W (reddit_url clean_sub) clean_sub (seq 1 attempts) acc h
  = (Ok ((acc ++ items ++ items ++ items)%list, false),
     Get (reddit_url clean_sub) [] :: Choice
       :: before_attempt (reddit_url clean_sub) h 2).
Proof.
  intros Hans Hs Hc Ha.
  pose proof (reddit_attempt_partial W clean_sub resp Hs Hc Ha) as Hpart.
  pose proof (Hans 0%nat ltac:(lia)) as E0.
  pose proof (Hans 1%nat ltac:(lia)) as E1.
  pose proof (Hans 2%nat ltac:(lia)) as E2.
  unfold answer in E0, E1, E2; simpl before_attempt in E0, E1, E2.
  unfold attempts; simpl seq.
  rewrite retry_loop_step. unfold succeeded. rewrite E0, Hpart.
  cbv zeta; simpl fst; simpl snd.
  change (1 <? attempts)%nat with true. cbv iota.
  rewrite retry_loop_step. unfold succeeded. rewrite E1, Hpart.
  cbv zeta; simpl fst; simpl snd.
  change (2 <? attempts)%nat with true. cbv iota.
  rewrite retry_loop_step. unfold succeeded. rewrite E2, Hpart.
  cbv zeta; simpl fst; simpl snd.
  change (3 <? attempts)%nat with false. cbv iota.
  simpl. unfold ret. now rewrite <- !app_assoc.
Qed.

Lemma reddit_partial_parse_is_repeated_witness :
  retry_loop stammer (reddit_url "b") "b" (seq 1 attempts) [] []
  = (Ok (([] ++ [wish] ++ [wish] ++ [wish])%list, false),
     Get (reddit_url "b") [] :: Choice
       :: before_attempt (reddit_url "b") [] 2).
Proof.
  apply (@reddit_partial_parse_is_repeated stammer "b" [] [] broken_page
           [JObj [("data",
                   JObj [("title", JStr "I wish this existed");
                         ("selftext", JStr "please");
                         ("id", JStr "t3");
                         ("permalink", JStr "/r/b/t3")])];
            JInt 5]
           [wish] AttributeError).
  - intros k Hk. reflexivity.
  - reflexivity.
  - reflexivity.
  - reflexivity.
Defined.

Lemma reddit_subs_ill_typed (W : World) (names : list string) (x : json)
      (rest : list json) acc h :
  is_str x = false ->
  reddit_subs W (map JStr names ++ x :: rest)%list acc h
  = (Raise AttributeError, snd (reddit_subs W (map JStr names) acc h)).
Proof.
  intros Hx. revert acc h; induction names as [|sub more IH]; intros acc h.
  - simpl app. destruct x; try discriminate; reflexivity.
  - simpl map; simpl app. rewrite !reddit_subs_cons. cbv zeta.
    destruct (is_safe_url_returns W (reddit_url (str_strip W sub)) h)
      as (v & h1 & ->).
    destruct v; [|apply IH].
    destruct (retry_loop_returns W (reddit_url (str_strip W sub))
                (str_strip W sub) (seq 1 attempts) acc h1)
      as (l & ok & h2 & ->).
    apply IH.
Qed.

(** X11: a community list that holds a value that is not a string makes
    the feed harvest raise when the loop reaches that value: the history
    is then exactly the history of the harvest of the communities before
    it, whose gate checks, requests and sleeps have all been made, and
    nothing is done for the communities after it; the records of the
    communities before it are lost; the handler answers a request for the
    feed source with such a list with the generic 500, after the same
    history. *)
Theorem ill_typed_community_raises
    (W : World) (names : list string) (x : json) (rest : list json)
    (h : history) :
  is_str x = false ->
  let h' := snd (scrape_reddit_rss W (JList (map JStr names)) h) in
  scrape_reddit_rss W (JList (map JStr names ++ x :: rest)) h
  = (Raise AttributeError, h')
  /\ (forall items,
         lookup "source" items = Some (JStr "reddit") ->
         lookup "subreddits" items
         = Some (JList (map JStr names ++ x :: rest)) ->
         py_any (JList (map JStr names ++ x :: rest)) = true ->
         endpoint W (JObj items) h
         = ((500,
             Error "Something went wrong on the server. Please try again later."),
            h')).
Proof.
  intros Hx h'. subst h'. rewrite !scrape_reddit_rss_list.
  pose proof (reddit_subs_ill_typed W names x rest [] h Hx) as E.
  split; [exact E|].
  intros items Hsrc Hsubs Hany. unfold endpoint, generate.
  rewrite (truthy_obj _ _ Hsrc); simpl.
  rewrite Hsrc. unfold reddit_part. run; simpl. rewrite Hsubs.
  assert (Htruthy : truthy (JList (map JStr names ++ x :: rest)) = true).
  { simpl. destruct names; reflexivity. }
  rewrite Htruthy, Hany. cbn [negb orb andb is_list].
  rewrite scrape_reddit_rss_list, E. reflexivity.
Qed.

Lemma ill_typed_community_raises_witness :
  let h' := [Get (reddit_url "b") []; Choice;
             Gate (reddit_url "b") true; Dns "www.reddit.com"] in
  scrape_reddit_rss two_communities (JList [JStr "b"; JInt 5]) []
  = (Raise AttributeError, h')
  /\ endpoint two_communities (JObj mixed_request) []
     = ((500,
         Error "Something went wrong on the server. Please try again later."),
        h').
Proof.
  destruct (@ill_typed_community_raises two_communities ["b"] (JInt 5) [] []
              eq_refl) as [Hraise Hroute].
  split; [exact Hraise|].
  apply Hroute; reflexivity.
Defined.

(** ** The search of the store page *)

Lemma take_while_all (p : ascii -> bool) (s : string) :
  all_chars p (take_while p s) = true.
Proof.
  induction s as [|c s IH]; simpl; [reflexivity|].
  destruct (p c) eqn:Ec; simpl; [now rewrite Ec | reflexivity].
Qed.

Lemma take_while_split (p : ascii -> bool) (s : string) :
  exists after, s = take_while p s ++ after /\ stops p after = true.
Proof.
  induction s as [|c s IH]; simpl.
  - now exists "".
  - destruct (p c) eqn:Ec.
    + destruct IH as (after & E & Hs). exists after. simpl.
      split; [now rewrite <- E | exact Hs].
    + exists (String c s). simpl. now rewrite Ec.
Qed.

Lemma take_while_empty (p : ascii -> bool) (c : ascii) (s : string) :
  take_while p (String c s) = "" -> p c = false.
Proof. simpl. now destruct (p c). Qed.

Lemma search_details_nonempty (s gid : string) :
  search_details s = Some gid -> gid <> "".
Proof.
  induction s as [|c s IH]; [discriminate|].
  cbn [search_details].
  destruct (startswith (String c s) "details?id="); [|exact IH].
  destruct (take_while id_char (drop 11 (String c s))) as [|a g] eqn:Et;
    [exact IH|].
  intros E; injection E as <-. discriminate.
Qed.

(** X12: what the search of a store page returns is a non-empty run of
    identifier characters that follows [details?id=] in the page and is
    not followed by a further identifier character; it returns nothing
    only when no [details?id=] of the page is followed by an identifier
    character. *)
Theorem search_details_finds_an_identifier (s : string) :
  match search_details s with
  | Some gid =>
      gid <> ""
      /\ all_chars id_char gid = true
      /\ exists before after,
           s = before ++ "details?id=" ++ gid ++ after
           /\ stops id_char after = true
  | None =>
      forall before c after,
        s = before ++ "details?id=" ++ String c after -> id_char c = false
  end.
Proof.
  induction s as [|c s IH].
  - simpl. intros [|b before] c after H; simpl in H; discriminate.
  - cbn [search_details].
    destruct (startswith (String c s) "details?id=") eqn:Ep.
    + unfold startswith in Ep. apply prefix_spec in Ep as [rest Erest].
      assert (Edrop : drop 11 (String c s) = rest).
      { rewrite Erest. apply (drop_app "details?id=" rest). }
      rewrite Edrop.
      destruct (take_while id_char rest) as [|a g] eqn:Et.
      * destruct (search_details s) as [gid|].
        -- destruct IH as (Hne & Hall & before & after & E & Hs).
           split; [exact Hne|]. split; [exact Hall|].
           exists (String c before), after. split; [|exact Hs].
           rewrite E. reflexivity.
        -- intros [|b before] c0 after H.
           ++ rewrite Erest in H. apply (f_equal (drop 11)) in H.
              simpl in H. rewrite H in Et. now apply take_while_empty in Et.
           ++ simpl in H. injection H as _ H. now apply (IH before c0 after).
      * split; [discriminate|]. split.
        { rewrite <- Et. apply take_while_all. }
        destruct (take_while_split id_char rest) as (after & E & Hs).
        rewrite Et in E. exists "", after. split; [|exact Hs].
        rewrite Erest, E. reflexivity.
    + destruct (search_details s) as [gid|].
      * destruct IH as (Hne & Hall & before & after & E & Hs).
        split; [exact Hne|]. split; [exact Hall|].
        exists (String c before), after. split; [|exact Hs].
        rewrite E. reflexivity.
      * intros [|b before] c0 after H.
        -- assert (String.prefix "details?id=" (String c s) = true).
           { apply prefix_spec. exists (String c0 after). exact H. }
           unfold startswith in Ep. congruence.
        -- simpl in H. injection H as _ H. now apply (IH before c0 after).
Qed.

(** ** The resolution of an app *)

Lemma search_manual_returns (W : World) (query : json) (h : history) :
  exists found,
    search_google_play_manual W query h
    = (Ok found, Get (play_search_url W query) [] :: h)
    /\ forall gid, found = Some gid -> String.eqb gid "" = false.
Proof.
  unfold search_google_play_manual, try_except, requests_get, fetch. run.
  destruct (http W h (play_search_url W query) []) as [resp|e].
  - destruct (status_code resp =? 200).
    + eexists; split; [reflexivity|]. intros gid Hg.
      apply String.eqb_neq. now apply (search_details_nonempty (text resp)).
    + eexists; split; [reflexivity|]. discriminate.
  - eexists; split; [reflexivity|]. discriminate.
Qed.

(** X13: the Android resolution never raises; it searches the store page
    once; when the search finds no identifier it resolves nothing and
    does not ask for the app details; when it finds one it always
    resolves, to that identifier and its store URL, with the title of
    the app details or, when the details cannot be had, the query. *)
Theorem try_android_falls_back_to_the_query
    (W : World) (name : json) (h : history) :
  let h1 := Get (play_search_url W name) [] :: h in
  exists found,
    search_google_play_manual W name h = (Ok found, h1)
    /\ match found with
       | None => try_android W name h = (Ok None, h1)
       | Some gid =>
           try_android W name h
           = (Ok (Some {| platform := "android";
                          app_id := JStr gid;
                          title := android_title W name h1 gid;
                          app_url :=
                            JStr ("https://play.google.com/store/apps/details?id="
                                  ++ gid) |}),
              PlayApp gid :: h1)
       end.
Proof.
  intros h1.
  destruct (search_manual_returns W name h) as (found & E & Hne).
  exists found. split; [exact E|].
  destruct found as [gid|];
    unfold try_android, try_except; unfold bind at 1; rewrite E;
    [|reflexivity].
  rewrite (Hne gid eq_refl). cbn [negb].
  unfold android_title, play_app_call. run. fold h1.
  destruct (play_app W h1 gid) as [app_details|e]; [|reflexivity].
  destruct (py_get app_details "title" name); reflexivity.
Qed.

(** X14: the iOS resolution never raises and issues exactly one request,
    the store search for the name; what it resolves has the platform ios
    and takes its identifier, title and URL from the first result of an
    answer whose result count is positive. *)
Theorem try_ios_resolves_the_first_result
    (W : World) (name : json) (h : history) :
  exists found,
    try_ios W name h
    = (Ok found, Get itunes_search_url (search_params name) :: h)
    /\ forall app,
         found = Some app ->
         platform app = "ios"
         /\ exists resp data count results first,
              http W h itunes_search_url (search_params name) = Ok resp
              /\ body resp = Ok data
              /\ py_item data "resultCount" = Ok count
              /\ py_gt0 count = Ok true
              /\ py_item data "results" = Ok results
              /\ py_first results = Ok first
              /\ py_item first "trackId" = Ok (app_id app)
              /\ py_item first "trackName" = Ok (title app)
              /\ py_item first "trackViewUrl" = Ok (app_url app).
Proof.
  unfold try_ios, try_except, requests_get, fetch, search_params. run.
  destruct (http W h itunes_search_url _) as [resp|e] eqn:Eh;
    [|eexists; split; [reflexivity | discriminate]].
  destruct (body resp) as [data|e] eqn:Eb;
    [|eexists; split; [reflexivity | discriminate]].
  destruct (py_item data "resultCount") as [count|e] eqn:Ec;
    [|eexists; split; [reflexivity | discriminate]].
  destruct (py_gt0 count) as [[|]|e] eqn:Eg;
    try (eexists; split; [reflexivity | discriminate]).
  destruct (py_item data "results") as [results|e] eqn:Er;
    [|eexists; split; [reflexivity | discriminate]].
  destruct (py_first results) as [first|e] eqn:Ef;
    [|eexists; split; [reflexivity | discriminate]].
  destruct (py_item first "trackId") as [track_id|e] eqn:E1;
    [|eexists; split; [reflexivity | discriminate]].
  destruct (py_item first "trackName") as [track_name|e] eqn:E2;
    [|eexists; split; [reflexivity | discriminate]].
  destruct (py_item first "trackViewUrl") as [track_url|e] eqn:E3;
    [|eexists; split; [reflexivity | discriminate]].
  eexists; split; [reflexivity|].
  intros app E; injection E as <-. split; [reflexivity|].
  exists resp, data, count, results, first. simpl. auto 10.
Qed.

(** ** What the review harvest returns *)

Lemma android_review_labelled (W : World) (info : AppResolution) (r : json)
      (record : OpportunityRecord) :
  platform info = "android" ->
  android_review W info r = Ok (Some record) -> review_record W info record.
Proof.
  intros Hp. unfold android_review, rbind.
  destruct (py_get r "content" (JStr "")) as [content|e]; [|discriminate].
  destruct (py_len content) as [n|e]; [|discriminate].
  destruct (10 <? n); [|discriminate].
  destruct (py_get r "reviewId" JNull) as [review_id|e]; [|discriminate].
  destruct (py_slice content 300) as [excerpt|e]; [|discriminate].
  intros E; injection E as <-. split; [reflexivity|]. left.
  split; [exact Hp|]. split; [reflexivity|]. eexists; reflexivity.
Qed.

Lemma ios_review_labelled (W : World) (info : AppResolution) (entry : json)
      (record : OpportunityRecord) :
  platform info = "ios" ->
  ios_review W info entry = Ok (Some record) -> review_record W info record.
Proof.
  intros Hp. unfold ios_review, rbind.
  destruct (py_contains "author" entry) as [[|]|e]; try discriminate.
  cbn [negb].
  destruct (label entry "title" (JStr "")) as [t|e]; [|discriminate].
  destruct (label entry "content" (JStr "")) as [content|e]; [|discriminate].
  destruct (label entry "im:rating" (JStr "?")) as [rating|e];
    [|discriminate].
  destruct (10 <? String.length (fmt W t ++ " - " ++ fmt W content))%nat;
    [|discriminate].
  destruct (label entry "id" JNull) as [entry_id|e]; [|discriminate].
  intros E; injection E as <-. split; [reflexivity|]. right.
  split; [exact Hp|]. split; [reflexivity|].
  exists (fmt W rating), (take 300 (fmt W t ++ " - " ++ fmt W content)).
  split; [reflexivity | apply length_take].
Qed.

Lemma reviews_try_keeps (W : World) (info : AppResolution) (h : history) :
  Forall (review_record W info) (accumulated (fst (reviews_try W info h))).
Proof.
  unfold reviews_try.
  destruct (String.eqb_spec (platform info) "android") as [Ha|_].
  - unfold play_reviews_call. run.
    destruct (play_reviews W h (app_id info)) as [result|e]; [|constructor].
    destruct (py_iter result) as [items|e]; [|constructor].
    simpl.
    pose proof (@append_each_keeps (review_record W info)
                  (android_review W info) items []
                  (fun x record => android_review_labelled W info x Ha)
                  (Forall_nil _)) as H.
    destruct (append_each (android_review W info) items []); exact H.
  - destruct (String.eqb_spec (platform info) "ios") as [Hi|_];
      [|constructor].
    unfold requests_get, fetch. run.
    destruct (http W h (feed_url W info) []) as [resp|e]; [|constructor].
    destruct (body resp) as [data|e]; [|constructor].
    destruct (py_get data "feed" (JObj [])) as [feed|e]; [|constructor].
    destruct (py_get feed "entry" (JList [])) as [entries|e]; [|constructor].
    destruct (py_iter entries) as [items|e]; [|constructor].
    simpl.
    pose proof (@append_each_keeps (review_record W info)
                  (ios_review W info) items []
                  (fun x record => ios_review_labelled W info x Hi)
                  (Forall_nil _)) as H.
    destruct (append_each (ios_review W info) items []); exact H.
Qed.

(** X15: the platform that is resolved is ios exactly when the preference
    is the string ios, and android for any other preference; every record
    the review harvest returns carries the URL of the resolved app, the
    label of its store with the title of the app, and the text tag of
    that store (for iOS with an excerpt of at most 300 characters). *)
Theorem review_harvest_returns_labelled_records
    (W : World) (name pref : json) (h : history) :
  exists found h1,
    find_app W name pref h = (Ok found, h1)
    /\ match found with
       | None => scrape_reviews W name pref h = (Ok None, h1)
       | Some info =>
           platform info
           = (if py_eq_str pref "ios" then "ios" else "android")
           /\ exists l h2,
                scrape_reviews W name pref h = (Ok (Some l), h2)
                /\ Forall (review_record W info) l
       end.
Proof.
  destruct (find_app_returns W name pref h) as (found & h1 & E).
  exists found, h1. split; [exact E|].
  unfold scrape_reviews, bind. rewrite E.
  destruct found as [info|]; [|reflexivity]. split.
  - unfold find_app in E. destruct (py_eq_str pref "ios").
    + exact (try_ios_platform W name h E).
    + exact (try_android_platform W name h E).
  - unfold fetch_reviews.
    pose proof (reviews_try_keeps W info h1) as H.
    destruct (reviews_try W info h1) as [r h2].
    eexists _, _. split; [reflexivity | exact H].
Qed.

(** ** The synthesis adapter: what comes back *)

Lemma enrich_cites (W : World) (collected_data : list OpportunityRecord)
      (idea : json) (e : EnhancedIdea) :
  enrich W collected_data idea = Ok (Some e) -> cites collected_data e.
Proof.
  unfold enrich, rbind.
  destruct (py_get idea "source_id" (JInt (-1))) as [sid|x];
    [|destruct x; discriminate].
  destruct (py_int W sid) as [idx|x]; [|destruct x; discriminate].
  destruct ((0 <=? idx) && (idx <? Z.of_nat (List.length collected_data)));
    [|discriminate].
  destruct (nth_error collected_data (Z.to_nat idx)) as [original|] eqn:En;
    [|discriminate].
  destruct (py_item idea "name") as [n|x]; [|destruct x; discriminate].
  destruct (py_item idea "pitch") as [p|x]; [|destruct x; discriminate].
  intros E; injection E as <-. exists original.
  split; [exact (nth_error_In _ _ En) | auto].
Qed.

Lemma enrich_all_cites (W : World) (collected_data : list OpportunityRecord)
      (ideas : list json) (acc l : list EnhancedIdea) :
  Forall (cites collected_data) acc ->
  enrich_all W collected_data ideas acc = Ok l ->
  Forall (cites collected_data) l.
Proof.
  revert acc; induction ideas as [|idea rest IH]; intros acc Hacc; simpl.
  - intros E; injection E as <-. exact Hacc.
  - destruct (enrich W collected_data idea) as [[e|]|x] eqn:Ee; simpl.
    + apply IH. apply Forall_app; split; [exact Hacc|].
      constructor; [exact (@enrich_cites W _ _ _ Ee) | constructor].
    + now apply IH.
    + discriminate.
Qed.

(** X16: the synthesis adapter never raises; for an empty list it returns
    no idea and does not call the model; otherwise it calls the model
    exactly once, with the data string of the list, and every idea it
    returns carries the text, the URL and the label of one of the
    collected records. *)
Theorem ideas_cite_collected_records
    (W : World) (collected_data : list OpportunityRecord) (h : history) :
  exists ideas,
    generate_business_ideas W collected_data h
    = (Ok ideas,
       match collected_data with
       | [] => h
       | _ => Llm (data_str W collected_data) :: h
       end)
    /\ Forall (cites collected_data) ideas
    /\ (collected_data = [] -> ideas = []).
Proof.
  destruct collected_data as [|r rest].
  - exists []. split; [reflexivity|]. split; [constructor | reflexivity].
  - unfold generate_business_ideas, try_except, ask_model, data_str. run.
    destruct (llm W h _) as [model_reply|x];
      [|exists []; split; [reflexivity|]; split; [constructor | discriminate]].
    destruct (py_get model_reply "ideas" (JList [])) as [result|x];
      [|exists []; split; [reflexivity|]; split; [constructor | discriminate]].
    destruct (py_iter result) as [ideas|x];
      [|exists []; split; [reflexivity|]; split; [constructor | discriminate]].
    destruct (enrich_all W (r :: rest) ideas []) as [l|x] eqn:Ea.
    + exists l. split; [reflexivity|]. split; [|discriminate].
      apply (@enrich_all_cites W (r :: rest) ideas [] l); [constructor | exact Ea].
    + exists []. split; [reflexivity|]. split; [constructor | discriminate].
Qed.

(** ** The synthesis adapter: skipped and fatal ideas *)

Lemma skipped_is_dropped (W : World) (collected_data : list OpportunityRecord)
      (fields : list (string * json)) :
  skipped W collected_data fields ->
  enrich W collected_data (JObj fields) = Ok None.
Proof.
  intros [Hnone | [(idx & Hid & Hout) | (s & Hid & Hint)]].
  - unfold enrich; simpl. rewrite Hnone. reflexivity.
  - now apply (@enrich_out_of_range W collected_data fields idx Hid).
  - unfold enrich; simpl. rewrite Hid; simpl. now rewrite Hint.
Qed.

Lemma enrich_all_skips (W : World) (collected_data : list OpportunityRecord)
      (idea : json) (before after : list json) (acc : list EnhancedIdea) :
  enrich W collected_data idea = Ok None ->
  enrich_all W collected_data (before ++ idea :: after) acc
  = enrich_all W collected_data (before ++ after) acc.
Proof.
  intros Hskip. revert acc; induction before as [|x rest IH]; intros acc;
    simpl.
  - now rewrite Hskip.
  - destruct (enrich W collected_data x) as [o|e]; simpl; [apply IH|reflexivity].
Qed.

(** X17: an idea without an index, with an integer index outside the
    collected list, or with a string index that [int] rejects is skipped
    and nothing else changes: the adapter returns what the ideas before
    and after it give on their own. *)
Theorem skipped_idea_changes_nothing
    (W : World) (collected_data : list OpportunityRecord) (h : history)
    (fields : list (string * json)) (before after : list json) :
  collected_data <> [] ->
  llm W h (data_str W collected_data)
  = Ok (JObj [("ideas", JList (before ++ JObj fields :: after))]) ->
  skipped W collected_data fields ->
  fst (generate_business_ideas W collected_data h)
  = Ok (match enrich_all W collected_data (before ++ after) [] with
        | Ok l => l
        | Raise _ => []
        end).
Proof.
  intros Hne Hllm Hskip.
  destruct collected_data as [|r rest]; [congruence|].
  unfold generate_business_ideas, try_except, ask_model. run.
  unfold data_str in Hllm. rewrite Hllm. simpl.
  rewrite (@enrich_all_skips W (r :: rest) (JObj fields) before after []
             (@skipped_is_dropped W (r :: rest) fields Hskip)).
  destruct (enrich_all W (r :: rest) (before ++ after) []); reflexivity.
Qed.

Lemma skipped_idea_changes_nothing_witness :
  fst (generate_business_ideas wandering (complaints 3) [])
  = Ok (match enrich_all wandering (complaints 3) ([idea "A" 1] ++ []) [] with
        | Ok l => l
        | Raise _ => []
        end).
Proof.
  apply (@skipped_idea_changes_nothing wandering (complaints 3) []
           [("name", JStr "B"); ("pitch", JStr "pitch"); ("source_id", JInt 7)]
           [idea "A" 1] []).
  - discriminate.
  - reflexivity.
  - right; left. exists 7. split; [reflexivity | right; simpl; lia].
Defined.

Lemma fatal_raises (W : World) (collected_data : list OpportunityRecord)
      (idea : json) :
  fatal collected_data idea -> exists e, enrich W collected_data idea = Raise e.
Proof.
  intros [Hno | (fields & -> & [Hnull | (idx & Hid & Hin & Hmiss)])].
  - destruct idea; try discriminate; eexists; reflexivity.
  - unfold enrich; simpl. rewrite Hnull; simpl. eexists; reflexivity.
  - unfold enrich; simpl. rewrite Hid; simpl.
    destruct (Z.leb_spec 0 idx); [|lia].
    destruct (Z.ltb_spec idx (Z.of_nat (List.length collected_data))); [|lia].
    simpl.
    destruct (nth_error collected_data (Z.to_nat idx)) as [original|] eqn:En.
    2:{ apply nth_error_None in En. lia. }
    destruct Hmiss as [Hn | Hp].
    + rewrite Hn. simpl. eexists; reflexivity.
    + destruct (lookup "name" fields); simpl; [rewrite Hp; simpl|];
        eexists; reflexivity.
Qed.

Lemma enrich_all_raises (W : World) (collected_data : list OpportunityRecord)
      (ideas : list json) (idea : json) (acc : list EnhancedIdea) :
  In idea ideas ->
  (exists e, enrich W collected_data idea = Raise e) ->
  exists e, enrich_all W collected_data ideas acc = Raise e.
Proof.
  intros Hin [e He]. revert acc.
  induction ideas as [|x rest IH]; intros acc; [destruct Hin|].
  simpl. destruct Hin as [-> | Hin].
  - rewrite He. simpl. now exists e.
  - destruct (enrich W collected_data x) as [o|e']; simpl;
      [now apply IH | now exists e'].
Qed.

(** X18: one idea that is not an object, whose index is null, or whose
    index is in the collected list while its name or pitch is missing
    makes the adapter return no idea at all: the well-formed ideas of
    the same reply are lost with it. *)
Theorem fatal_idea_loses_every_idea
    (W : World) (collected_data : list OpportunityRecord) (h : history)
    (ideas : list json) (bad : json) :
  collected_data <> [] ->
  llm W h (data_str W collected_data) = Ok (JObj [("ideas", JList ideas)]) ->
  In bad ideas ->
  fatal collected_data bad ->
  generate_business_ideas W collected_data h
  = (Ok [], Llm (data_str W collected_data) :: h).
Proof.
  intros Hne Hllm Hin Hbad.
  destruct collected_data as [|r rest]; [congruence|].
  unfold generate_business_ideas, try_except, ask_model. run.
  unfold data_str in *. rewrite Hllm. simpl.
  destruct (@enrich_all_raises W (r :: rest) ideas bad [] Hin
              (@fatal_raises W (r :: rest) bad Hbad)) as [e He].
  now rewrite He.
Qed.

Lemma fatal_idea_loses_every_idea_witness :
  generate_business_ideas careless (complaints 3) []
  = (Ok [], Llm (data_str careless (complaints 3)) :: []).
Proof.
  apply (@fatal_idea_loses_every_idea careless (complaints 3) []
           [idea "A" 1; idea "B" 7;
            JObj [("name", JStr "C"); ("pitch", JStr "pitch");
                  ("source_id", JNull)]]
           (JObj [("name", JStr "C"); ("pitch", JStr "pitch");
                  ("source_id", JNull)])).
  - discriminate.
  - reflexivity.
  - right; right; left; reflexivity.
  - right. eexists. split; [reflexivity|]. left; reflexivity.
Defined.

(** ** The synthesis adapter: what is submitted *)

Lemma input_lines_nth (W : World) (items : list OpportunityRecord)
      (k i : nat) :
  nth_error (input_lines W k items) i
  = option_map (input_line W (k + i)) (nth_error items i).
Proof.
  revert k i; induction items as [|r rest IH]; intros k i.
  - destruct i; reflexivity.
  - destruct i as [|i]; simpl.
    + now rewrite Nat.add_0_r.
    + rewrite IH. now rewrite Nat.add_succ_r.
Qed.

Lemma length_input_lines (W : World) (items : list OpportunityRecord)
      (k : nat) :
  List.length (input_lines W k items) = List.length items.
Proof.
  revert k; induction items as [|r rest IH]; intros k; simpl;
    [reflexivity | now rewrite IH].
Qed.

(** X19: the lines submitted to the model are one per record for the first
    30 records and no more, and line number [i] carries the index [i] and
    the text of record number [i], so that an index the model returns
    names the record at that position of the collected list. *)
Theorem input_data_is_indexed
    (W : World) (collected_data : list OpportunityRecord) :
  List.length (input_data W collected_data)
  = Nat.min 30 (List.length collected_data)
  /\ forall i,
       nth_error (input_data W collected_data) i
       = if (i <? 30)%nat
         then option_map (input_line W i) (nth_error collected_data i)
         else None.
Proof.
  unfold input_data. split.
  - now rewrite length_input_lines, length_firstn.
  - intros i. now rewrite input_lines_nth, nth_error_firstn;
      destruct (i <? 30)%nat.
Qed.

(** ** The route: replies and validation *)

Lemma generate_business_ideas_returns
    (W : World) (collected_data : list OpportunityRecord) (h : history) :
  exists ideas h', generate_business_ideas W collected_data h = (Ok ideas, h').
Proof.
  unfold generate_business_ideas.
  destruct collected_data; [eexists _, _; reflexivity|].
  apply try_except_default.
Qed.

Lemma analyze_well_formed (W : World) (source : json)
      (collected_data : list OpportunityRecord) (h : history) :
  exists r h', analyze W collected_data h = (Ok r, h') /\ well_formed source r.
Proof.
  unfold analyze, bind.
  destruct (generate_business_ideas_returns W collected_data h)
    as (ideas & h' & ->).
  eexists _, _. split; reflexivity.
Qed.

Lemma reviews_part_well_formed (W : World) (data source : json)
      (collected_data : list OpportunityRecord) (h : history) :
  match fst (reviews_part W data source collected_data h) with
  | Ok r => well_formed source r
  | Raise _ => True
  end.
Proof.
  unfold reviews_part, in_strs. cbn [existsb]. rewrite orb_false_r.
  destruct (py_eq_str source "reviews") eqn:Es.
  2:{ destruct (analyze_well_formed W source collected_data h)
        as (r & h' & -> & Hr). exact Hr. }
  run.
  destruct (py_get data "app_name" (JStr "")) as [app_name|e]; [|exact I].
  destruct (negb (truthy app_name)).
  - simpl. now left.
  - destruct (py_strip W app_name) as [stripped|e]; [|exact I].
    destruct (String.eqb stripped ""); [simpl; now left|].
    destruct (py_get data "platform" (JStr "android")) as [pref|e]; [|exact I].
    destruct (scrape_reviews W app_name pref h) as [[[l|]|e] h1]; [| |exact I].
    + destruct (analyze_well_formed W source (collected_data ++ l) h1)
        as (r & h' & -> & Hr). exact Hr.
    + simpl. right. split; [reflexivity | exact Es].
Qed.

Lemma reddit_part_well_formed (W : World) (data source : json)
      (collected_data : list OpportunityRecord) (h : history) :
  match fst (reddit_part W data source collected_data h) with
  | Ok r => well_formed source r
  | Raise _ => True
  end.
Proof.
  unfold reddit_part.
  destruct (in_strs source ["reddit"; "all"]);
    [|apply reviews_part_well_formed].
  run.
  destruct (py_get data "subreddits" (JList [])) as [subs|e]; [|exact I].
  destruct (py_eq_str source "reddit"
            && (negb (truthy subs) || is_list subs && negb (py_any subs))).
  - simpl. now left.
  - destruct (scrape_reddit_rss W _ h) as [[l|e] h1]; [|exact I].
    apply reviews_part_well_formed.
Qed.

(** X20: whatever the parsed payload and whatever the world answers, the
    body of the handler, with the handler of unhandled exceptions behind
    it, replies with 200 and a list of ideas, or with an error message
    and one of 400, 404 and 500; 404 is given only to a payload whose
    source selector is reviews.  What comes before the body of the
    handler (the rate limiter, the parsing of the request) is not part
    of [endpoint]. *)
Theorem endpoint_reply_is_well_formed
    (W : World) (data : json) (h : history) :
  match fst (endpoint W data h) with
  | (code, Ideas _ _) => code = 200
  | (code, Error _) =>
      code = 400 \/ code = 500
      \/ (code = 404
          /\ py_get data "source" (JStr "all") = Ok (JStr "reviews"))
  end.
Proof.
  unfold endpoint, generate.
  destruct (negb (truthy data)); [simpl; now left|].
  run.
  destruct (py_get data "source" (JStr "all")) as [source|e];
    [|simpl; right; now left].
  assert (Hpart : forall collected_data h1,
             match fst (let (r0, h') :=
                          reddit_part W data source collected_data h1 in
                        match r0 with
                        | Ok r => (r, h')
                        | Raise _ => ((500, Error generic_error), h')
                        end) with
             | (code, Ideas _ _) => code = 200
             | (code, Error _) =>
                 code = 400 \/ code = 500
                 \/ (code = 404 /\ Ok source = Ok (JStr "reviews"))
             end).
  { intros collected_data h1.
    pose proof (reddit_part_well_formed W data source collected_data h1) as H.
    destruct (reddit_part W data source collected_data h1) as [[r|e] h'];
      simpl in *; [|right; now left].
    destruct r as [code [m|n ideas]]; simpl in *; [|exact H].
    destruct H as [H | [H Hs]]; [now left|]. right; right.
    split; [exact H|]. destruct source; try discriminate.
    simpl in Hs. apply String.eqb_eq in Hs. now subst. }
  destruct (in_strs source ["hn"; "all"]).
  - destruct (scrape_hn_returns W 20 h) as (l & h1 & ->). apply Hpart.
  - apply Hpart.
Qed.

(** X21: the payloads false, null, 0, the empty string, the empty list
    and the empty object are answered with 400 and the message of an
    invalid payload; any other payload that is not an object is answered
    with the generic 500; in both cases nothing is harvested. *)
Theorem payload_must_be_an_object (W : World) (data : json) (h : history) :
  is_obj data && truthy data = false ->
  endpoint W data h
  = (if truthy data then (500, Error generic_error)
     else (400, Error "Invalid JSON payload"),
     h).
Proof.
  intros H. unfold endpoint, generate.
  destruct (truthy data) eqn:Et; simpl; [|reflexivity].
  rewrite andb_true_r in H.
  destruct data; try discriminate; reflexivity.
Qed.

Lemma payload_must_be_an_object_witness :
  endpoint (Demo.world Demo.offline Demo.mute) (JList [JStr "hn"]) []
  = (if truthy (JList [JStr "hn"]) then (500, Error generic_error)
     else (400, Error "Invalid JSON payload"),
     []).
Proof.
  apply (@payload_must_be_an_object (Demo.world Demo.offline Demo.mute)
           (JList [JStr "hn"]) []).
  reflexivity.
Defined.

(** X22: a community list without a truthy element (empty, or made of
    empty strings and nulls) and any falsy value in its place are rejected
    with 400 for the source reddit, before anything is harvested; for the
    source all a non-empty list of such blanks is not rejected and not
    replaced by the default: the feed harvest runs on it as it is. *)
Theorem blank_subreddits_rejected_for_reddit_only (W : World) :
  (forall items subs h,
      lookup "source" items = Some (JStr "reddit") ->
      lookup "subreddits" items = Some subs ->
      negb (truthy subs) || is_list subs && negb (py_any subs) = true ->
      endpoint W (JObj items) h
      = ((400, Error "Subreddits list cannot be empty for Reddit source"), h))
  /\ (forall items subs h,
         lookup "source" items = Some (JStr "all") ->
         lookup "subreddits" items = Some subs ->
         truthy subs = true ->
         generate W (JObj items) h
         = (hn <- scrape_hn_opportunities W 20 ;;
            l <- scrape_reddit_rss W subs ;;
            analyze W (hn ++ l)) h).
Proof.
  split; intros items subs h Hsrc Hsubs Hblank.
  - unfold endpoint, generate.
    rewrite (truthy_obj _ _ Hsrc); simpl. rewrite Hsrc.
    unfold reddit_part. run; simpl. rewrite Hsubs, Hblank. reflexivity.
  - unfold generate.
    rewrite (truthy_obj _ _ Hsrc); simpl. rewrite Hsrc.
    unfold reddit_part, reviews_part. run; simpl.
    destruct (scrape_hn_opportunities W 20 h) as [[hn|e] h1]; [|reflexivity].
    rewrite Hsubs, Hblank; simpl. reflexivity.
Qed.

Lemma blank_subreddits_rejected_for_reddit_only_witness :
  endpoint (Demo.world Demo.offline Demo.mute) (JObj reddit_blank_subs) []
  = ((400, Error "Subreddits list cannot be empty for Reddit source"), [])
  /\ generate (Demo.world Demo.offline Demo.mute) (JObj all_blank_subs) []
     = (hn <- scrape_hn_opportunities (Demo.world Demo.offline Demo.mute) 20 ;;
        l <- scrape_reddit_rss (Demo.world Demo.offline Demo.mute)
               (JList [JStr ""; JNull]) ;;
        analyze (Demo.world Demo.offline Demo.mute) (hn ++ l)) [].
Proof.
  split.
  - apply (proj1 (blank_subreddits_rejected_for_reddit_only
                    (Demo.world Demo.offline Demo.mute))
             reddit_blank_subs (JList [JStr ""; JNull])); reflexivity.
  - apply (proj2 (blank_subreddits_rejected_for_reddit_only
                    (Demo.world Demo.offline Demo.mute))
             all_blank_subs (JList [JStr ""; JNull])); reflexivity.
Defined.

(** X23: for the source reviews nothing is harvested before the app name
    is checked: a missing, falsy or blank name is answered with 400, and
    a truthy name that is not a string with the generic 500, with no
    request made. *)
Theorem reviews_need_an_app_name
    (W : World) (items : list (string * json)) (app_name : json)
    (h : history) :
  lookup "source" items = Some (JStr "reviews") ->
  py_get (JObj items) "app_name" (JStr "") = Ok app_name ->
  (truthy app_name = false ->
   endpoint W (JObj items) h
   = ((400, Error "App Name cannot be empty for Reviews source"), h))
  /\ (forall s,
         app_name = JStr s -> str_strip W s = "" ->
         endpoint W (JObj items) h
         = ((400, Error "App Name cannot be empty for Reviews source"), h))
  /\ (truthy app_name = true -> is_str app_name = false ->
      endpoint W (JObj items) h = ((500, Error generic_error), h)).
Proof.
  intros Hsrc Hname. simpl in Hname. injection Hname as Hname.
  assert (Hrun : endpoint W (JObj items) h
                 = let (r0, h') :=
                     reviews_part W (JObj items) (JStr "reviews") [] h in
                   match r0 with
                   | Ok r => (r, h')
                   | Raise _ => ((500, Error generic_error), h')
                   end).
  { unfold endpoint, generate.
    rewrite (truthy_obj _ _ Hsrc); simpl. rewrite Hsrc.
    unfold reddit_part. run; simpl. reflexivity. }
  rewrite Hrun. unfold reviews_part. run; simpl. rewrite Hname.
  split; [|split].
  - intros ->. reflexivity.
  - intros s -> Hs. simpl. rewrite Hs.
    destruct (String.eqb s ""); reflexivity.
  - intros Ht Hs. rewrite Ht. simpl.
    destruct app_name; try discriminate; reflexivity.
Qed.

Lemma reviews_need_an_app_name_witness :
  endpoint (Demo.world Demo.offline Demo.mute) (JObj nameless_request) []
  = ((400, Error "App Name cannot be empty for Reviews source"), []).
Proof.
  apply (proj1 (@reviews_need_an_app_name
                  (Demo.world Demo.offline Demo.mute) nameless_request
                  (JStr "") [] eq_refl eq_refl)).
  reflexivity.
Defined.

(** X24: a request without a source selector is served as a request for
    all: the two harvests and the analysis run as they do when the
    selector all is written out. *)
Theorem missing_source_means_all
    (W : World) (items : list (string * json)) (h : history) :
  lookup "source" items = None ->
  items <> [] ->
  generate W (JObj items) h
  = generate W (JObj (("source", JStr "all") :: items)) h.
Proof.
  intros Hsrc Hne.
  assert (Ht : truthy (JObj items) = true)
    by (destruct items; [congruence | reflexivity]).
  unfold generate. rewrite Ht.
  change (truthy (JObj (("source", JStr "all") :: items))) with true.
  unfold reddit_part, reviews_part. run. simpl. rewrite Hsrc. simpl.
  reflexivity.
Qed.

Lemma missing_source_means_all_witness :
  generate two_communities (JObj bare_request) []
  = generate two_communities
      (JObj (("source", JStr "all") :: bare_request)) [].
Proof.
  apply (@missing_source_means_all two_communities bare_request []).
  - reflexivity.
  - discriminate.
Defined.
